(** * ESP-P1 serial command interpreter: [components/commands/commands.c]

    A shallow embedding of the command tokenizer, the dispatcher, the
    numeric argument handler and the MAC formatter, together with the
    properties the design document states about them.

    Conventions of the embedding.
    - A [char] array is a [list ascii]; a C string is the part of such an
      array that precedes its first NUL byte.
    - A computation that would read or write outside an array, or read
      through a null pointer, is undefined in C: it is [None] here.  Every
      function therefore lives in the [option] monad, and the theorems
      establish [Some] results, i.e. that the code stays inside its buffers.
    - A pointer argument that the code tests against NULL is a [ptr]; a
      function returns the final contents of the objects it may write,
      in the shape in which it received them.
    - [int] results and numeric values are [Z]; array indices are [nat]. *)

From Stdlib Require Import ZArith Lia Ascii String.
From stdpp Require Import base option list strings.

Local Open Scope Z_scope.

(** ** Pointers *)

Inductive ptr (A : Type) : Type :=
  | NULL : ptr A
  | Ptr : A → ptr A.
Arguments NULL {A}.
Arguments Ptr {A} _.

Definition deref {A} (p : ptr A) : option A :=
  match p with
  | NULL => None
  | Ptr a => Some a
  end.

(** ** The C library functions the file calls

    These are modelled from ISO C (the "C" locale), for the ILP32 targets
    of the ESP32 family: [unsigned long] is 32 bits wide. *)

Module CLib.

Definition NUL : ascii := "000"%char.

Definition code (c : ascii) : Z := Z.of_nat (nat_of_ascii c).

(** The string stored at the start of an array: [None] when the array
    holds no terminator. *)
Fixpoint c_str (buf : list ascii) : option (list ascii) :=
  match buf with
  | [] => None
  | c :: rest => if decide (c = NUL) then Some [] else (c ::.) <$> c_str rest
  end.

(** A string literal as an array: its characters and the terminator. *)
Definition lit (s : string) : list ascii := list_ascii_of_string s ++ [NUL].

Definition strlen (s : list ascii) : option nat := length <$> c_str s.

(** [buf[i] = c] *)
Definition store (buf : list ascii) (i : nat) (c : ascii) : option (list ascii) :=
  if decide (i < length buf)%nat then Some (<[i:=c]> buf) else None.

(** Overwrite the first [length bytes] bytes of [dst]. *)
Definition write_bytes (dst bytes : list ascii) : option (list ascii) :=
  if decide (length bytes ≤ length dst)%nat
  then Some (bytes ++ drop (length bytes) dst)
  else None.

Definition memset (dst : list ascii) (c : ascii) (n : nat) : option (list ascii) :=
  write_bytes dst (replicate n c).

Definition strcpy (dst src : list ascii) : option (list ascii) :=
  s ← c_str src; write_bytes dst (s ++ [NUL]).

(** The characters [strncpy] copies: at most [n], stopping before a NUL. *)
Fixpoint c_strn (src : list ascii) (n : nat) {struct n} : option (list ascii) :=
  match n with
  | O => Some []
  | S n' =>
      match src with
      | [] => None
      | c :: rest => if decide (c = NUL) then Some [] else (c ::.) <$> c_strn rest n'
      end
  end.

(** [strncpy] always writes [n] bytes: the copy, then NUL padding. *)
Definition strncpy (dst src : list ascii) (n : nat) : option (list ascii) :=
  s ← c_strn src n; write_bytes dst (s ++ replicate (n - length s) NUL).

(** [strcmp], on the contents of two strings: the sign of the first
    difference, the characters compared as [unsigned char]. *)
Fixpoint strcmp_chars (s1 s2 : list ascii) : Z :=
  match s1, s2 with
  | [], [] => 0
  | [], _ :: _ => -1
  | _ :: _, [] => 1
  | c1 :: r1, c2 :: r2 =>
      if decide (c1 = c2) then strcmp_chars r1 r2
      else if code c1 <? code c2 then -1 else 1
  end.

Definition strcmp (s1 s2 : list ascii) : option Z :=
  a ← c_str s1; b ← c_str s2; Some (strcmp_chars a b).

Definition isupper (c : ascii) : bool := (65 <=? code c) && (code c <=? 90).
Definition islower (c : ascii) : bool := (97 <=? code c) && (code c <=? 122).
Definition isdigit (c : ascii) : bool := (48 <=? code c) && (code c <=? 57).

Definition isspace (c : ascii) : bool :=
  (code c =? 32) || ((9 <=? code c) && (code c <=? 13)).

Definition tolower (c : ascii) : ascii :=
  if isupper c then ascii_of_nat (Z.to_nat (code c + 32)) else c.

(** *** [strtoul] *)

Definition ULONG_MAX : Z := 4294967295.

(** The value of a character as a digit, whatever the base. *)
Definition digit_val (c : ascii) : option Z :=
  if isdigit c then Some (code c - 48)
  else if islower c then Some (code c - 97 + 10)
  else if isupper c then Some (code c - 65 + 10)
  else None.

Definition is_digit_of (base : Z) (c : ascii) : bool :=
  match digit_val c with
  | Some d => d <? base
  | None => false
  end.

(** The longest run of digits of [base] at the head of [s]: the number
    it denotes, on top of [acc], and its length. *)
Fixpoint scan_digits (base : Z) (s : list ascii) (acc : Z) : Z * nat :=
  match s with
  | [] => (acc, O)
  | c :: rest =>
      match digit_val c with
      | Some d =>
          if d <? base
          then let '(v, n) := scan_digits base rest (acc * base + d) in (v, S n)
          else (acc, O)
      | None => (acc, O)
      end
  end.

Fixpoint skip_space (s : list ascii) : nat :=
  match s with
  | c :: rest => if isspace c then S (skip_space rest) else O
  | [] => O
  end.

(** Length of an optional sign, and whether it is a minus. *)
Definition scan_sign (s : list ascii) : nat * bool :=
  match s with
  | c :: _ =>
      if decide (c = "-"%char) then (1%nat, true)
      else if decide (c = "+"%char) then (1%nat, false)
      else (O, false)
  | [] => (O, false)
  end.

(** Length of an optional [0x]/[0X] prefix, which base 16 admits when a
    hexadecimal digit follows it. *)
Definition scan_hex_prefix (base : Z) (s : list ascii) : nat :=
  match s with
  | z :: x :: h :: _ =>
      if (base =? 16) && bool_decide (z = "0"%char)
         && (bool_decide (x = "x"%char) || bool_decide (x = "X"%char))
         && is_digit_of 16 h
      then 2%nat else O
  | _ => O
  end.

(** [strtoul(nptr, &end, base)] for [2 <= base <= 36], on the contents
    of the string [nptr]: the result and the offset of [end] from
    [nptr].  Without a digit no conversion is performed: the result is 0
    and [end] is [nptr].  A value beyond [ULONG_MAX] gives [ULONG_MAX];
    a minus sign negates the value in the return type. *)
Definition strtoul (nptr : list ascii) (base : Z) : Z * nat :=
  let ws := skip_space nptr in
  let '(sg, neg) := scan_sign (drop ws nptr) in
  let px := scan_hex_prefix base (drop (ws + sg) nptr) in
  let '(v, n) := scan_digits base (drop (ws + sg + px) nptr) 0 in
  match n with
  | O => (0, O)
  | S _ =>
      (if ULONG_MAX <? v then ULONG_MAX
       else if neg then (- v) mod (ULONG_MAX + 1) else v,
       (ws + sg + px + n)%nat)
  end.

(** *** [printf] conversions *)

Definition digit_char (d : Z) : ascii := ascii_of_nat (Z.to_nat (48 + d)).

Fixpoint utoa_fuel (fuel : nat) (n : Z) : list ascii :=
  match fuel with
  | O => []
  | S f => (if n <? 10 then [] else utoa_fuel f (n / 10)) ++ [digit_char (n mod 10)]
  end.

(** [%u]-style output of a natural number.  A number has no more
    decimal digits than binary ones, so the fuel never runs out. *)
Definition utoa (n : Z) : list ascii := utoa_fuel (S (Z.to_nat (Z.log2 n))) n.

(** [%lld] *)
Definition lltoa (n : Z) : list ascii :=
  if n <? 0 then "-"%char :: utoa (- n) else utoa n.

(** [snprintf(dst, n, ...)], given the characters the format expands
    to: at most [n - 1] of them are stored, then a terminator. *)
Definition snprintf (dst : list ascii) (n : nat) (text : list ascii) : option (list ascii) :=
  match n with
  | O => Some dst
  | S m => write_bytes dst (take m text ++ [NUL])
  end.

End CLib.
Import CLib.

(** ** Loops *)

(** A loop whose body may fail, run once per element of [l]. *)
Fixpoint foldlM {A S : Type} (body : S → A → option S) (s : S) (l : list A) : option S :=
  match l with
  | [] => Some s
  | a :: l' => s' ← body s a; foldlM body s' l'
  end.

(** ** The data model *)

Inductive CommandToken : Type :=
  | COMMAND_UNKNOWN
  | COMMAND_MAC
  | COMMAND_ID
  | COMMAND_STATUS
  | COMMAND_DEC.

Record Command : Type := mkCommand {
  key : CommandToken;
  command : list ascii;
  argument : list ascii
}.

(** The two arrays of a [Command] that the tokenizer's [target] pointer
    can designate. *)
Inductive Target : Type := target_command | target_argument.

Definition target_store (tg : Target) (cmd : Command) (i : nat) (c : ascii) : option Command :=
  match tg with
  | target_command =>
      b ← store (command cmd) i c; Some (mkCommand (key cmd) b (argument cmd))
  | target_argument =>
      b ← store (argument cmd) i c; Some (mkCommand (key cmd) (command cmd) b)
  end.

(** The locals of the tokenizer's loop. *)
Record Scan : Type := mkScan {
  at_dst : nat;
  has_split : bool;
  target : Target;
  scanned : Command
}.

(** The character at offset [i] of a string given by its contents; the
    offset [length s] holds the terminator. *)
Definition str_at (s : list ascii) (i : nat) : ascii := default NUL (s !! i).

(** An object with indeterminate contents: a local array before it is
    initialised. *)
Definition indeterminate : ascii := "170"%char.
Definition alloca (n : nat) : list ascii := replicate n indeterminate.

Section Commands.

(** The capacity of every message buffer, a macro of [serial_io.h]. *)
Variable MSG_BUFFER_LENGTH : nat.

(** What the hardware collaborators answer: the six bytes
    [esp_read_mac] stores, the microseconds [esp_timer_get_time]
    returns, the [cores] field [esp_chip_info] fills in, and the result
    of [esp_get_free_heap_size]. *)
Variable esp_read_mac : list Z.
Variable esp_timer_get_time : Z.
Variable chip_info_cores : Z.
Variable esp_get_free_heap_size : Z.

Definition cast_uint32 (v : Z) : Z := v mod 2 ^ 32.

Definition init_Command (cmd : ptr Command) : option (ptr Command) :=
  match cmd with
  | NULL => Some NULL
  | Ptr c =>
      c1 ← memset (command c) NUL MSG_BUFFER_LENGTH;
      c2 ← memset (argument c) NUL MSG_BUFFER_LENGTH;
      Some (Ptr (mkCommand COMMAND_UNKNOWN c1 c2))
  end.

(** The two [case] labels of the tokenizer's [switch]. *)
Definition is_blank (c : ascii) : bool :=
  bool_decide (c = " "%char) || bool_decide (c = "009"%char).

(** The [switch] on the current character: the first blank moves the
    target to the argument and is dropped; any other character, and any
    later blank, is stored. *)
Definition parse_input_switch (st : Scan) (c : ascii) : option Scan :=
  if is_blank c && negb (has_split st)
  then Some (mkScan O true target_argument (scanned st))
  else
    cmd ← target_store (target st) (scanned st) (at_dst st)
            (if has_split st then c else tolower c);
    Some (mkScan (S (at_dst st)) (has_split st) (target st) cmd).

(** One turn of the tokenizer's [while] loop, at [in_msg[at_src]]. *)
Definition parse_input_step (in_msg : list ascii) (st : Scan) (at_src : nat) : option Scan :=
  c ← in_msg !! at_src; parse_input_switch st c.

Definition is_str (buf : list ascii) (s : string) : option bool :=
  r ← strcmp buf (lit s); Some (bool_decide (r = 0)).

Definition set_key (cmd : Command) (k : CommandToken) : Command :=
  mkCommand k (command cmd) (argument cmd).

Definition parse_input (in_msg : ptr (list ascii)) (out_cmd : ptr Command)
  : option (Z * ptr Command) :=
  match in_msg, out_cmd with
  | Ptr in_msg, Ptr _ =>
      len ← strlen in_msg;
      if decide (MSG_BUFFER_LENGTH ≤ len)%nat then Some (-2, out_cmd)
      else
        out_cmd ← init_Command out_cmd;
        cmd ← deref out_cmd;
        st ← foldlM (parse_input_step in_msg)
               (mkScan O false target_command cmd) (seq 0 len);
        let cmd := scanned st in
        is_mac ← is_str (command cmd) "mac";
        if (is_mac : bool) then Some (0, Ptr (set_key cmd COMMAND_MAC)) else
        is_id ← is_str (command cmd) "id";
        if (is_id : bool) then Some (0, Ptr (set_key cmd COMMAND_ID)) else
        is_status ← is_str (command cmd) "status";
        if (is_status : bool) then Some (0, Ptr (set_key cmd COMMAND_STATUS)) else
        is_dec ← is_str (command cmd) "dec";
        if (is_dec : bool) then Some (0, Ptr (set_key cmd COMMAND_DEC)) else
        Some (0, Ptr cmd)
  | _, _ => Some (-1, out_cmd)
  end.

Definition hexmap : list ascii := lit "0123456789ABCDEF".
Definition sep : ascii := ":"%char.

(** One turn of the formatter's [for] loop; the state is the output
    array and the cursor [at]. *)
Definition mac_to_string_step (mac : list Z) (st : list ascii * nat) (i : nat)
  : option (list ascii * nat) :=
  let '(out, at_) := st in
  b ← mac !! i;
  let lo := Z.land b 0x0F in
  let hi := Z.shiftr (Z.land b 0xF0) 4 in
  h ← hexmap !! Z.to_nat hi;
  out ← store out at_ h;
  l ← hexmap !! Z.to_nat lo;
  out ← store out (at_ + 1) l;
  if decide (i < 5)%nat
  then out ← store out (at_ + 2) sep; Some (out, (at_ + 3)%nat)
  else Some (out, (at_ + 2)%nat).

Definition mac_to_string (mac : ptr (list Z)) (out : ptr (list ascii))
  : option (ptr (list ascii)) :=
  match mac, out with
  | Ptr mac, Ptr out =>
      st ← foldlM (mac_to_string_step mac) (out, O) (seq 0 6);
      Some (Ptr st.1)
  | _, _ => Some out
  end.

Definition process_cmd_mac (in_cmd : Command) (out_msg : list ascii)
  : option (Z * list ascii) :=
  let local_mac := esp_read_mac in
  let prefix := lit "MAC " in
  out_msg ← strcpy out_msg prefix;
  n ← strlen prefix;
  rest ← mac_to_string (Ptr local_mac) (Ptr (drop n out_msg));
  rest ← deref rest;
  Some (0, take n out_msg ++ rest).

Definition process_cmd_id (in_cmd : Command) (out_msg : list ascii)
  : option (Z * list ascii) :=
  out_msg ← strcpy out_msg (lit "ID: otf2@hi.is");
  Some (0, out_msg).

Definition newline : ascii := "010"%char.

Definition process_cmd_status (in_cmd : Command) (out_msg : list ascii)
  : option (Z * list ascii) :=
  let time_s := Z.quot esp_timer_get_time 1000000 in
  let heap_size := cast_uint32 esp_get_free_heap_size in
  out_msg ← snprintf out_msg MSG_BUFFER_LENGTH
    (list_ascii_of_string "SYSTEM_UPTIME: " ++ lltoa time_s
     ++ list_ascii_of_string " S " ++ [newline]
     ++ list_ascii_of_string "AVAILABLE CORES: " ++ utoa (cast_uint32 chip_info_cores)
     ++ list_ascii_of_string " " ++ [newline]
     ++ list_ascii_of_string "AVAILABLE HEAP MEMORY: " ++ utoa (cast_uint32 heap_size));
  Some (0, out_msg).

(** The base the handler detects from the head of its argument. *)
Definition dec_base (num : list ascii) : Z :=
  if bool_decide (str_at num 0 = "0"%char) && bool_decide (1 < length num)%nat
  then
    let b := str_at num 1 in
    if bool_decide (b = "b"%char) then 2
    else if bool_decide (b = "x"%char) then 16
    else 8
  else 10.

(** [strtoul(num + skip, &end, base)] with its result cast to
    [uint32_t]; [end] is kept as an offset from [num]. *)
Definition strtoul_from (num : list ascii) (skip : nat) (base : Z) : Z * nat :=
  let '(v, e) := strtoul (drop skip num) base in (cast_uint32 v, (skip + e)%nat).

Definition argument_error : list ascii := lit "ARGUMENT ERROR".

Definition process_cmd_dec (in_cmd : Command) (out_msg : list ascii)
  : option (Z * list ascii) :=
  num ← c_str (argument in_cmd);
  let base := dec_base num in
  let '(con, end_) :=
    if base =? 10 then strtoul_from num 0 base
    else if base =? 8 then strtoul_from num 1 base
    else strtoul_from num 2 base in
  if bool_decide (end_ = O) || negb (bool_decide (str_at num end_ = NUL))
  then out_msg ← strcpy out_msg argument_error; Some (0, out_msg)
  else if 0xFFFF <? con
  then out_msg ← strcpy out_msg argument_error; Some (0, out_msg)
  else out_msg ← snprintf out_msg MSG_BUFFER_LENGTH (utoa con); Some (0, out_msg).

Definition uninitialised_Command : Command :=
  mkCommand COMMAND_UNKNOWN (alloca MSG_BUFFER_LENGTH) (alloca MSG_BUFFER_LENGTH).

Definition process_command (in_msg out_msg : ptr (list ascii))
  : option (Z * ptr (list ascii)) :=
  match in_msg, out_msg with
  | Ptr _, Ptr out =>
      str_buffer ← memset (alloca MSG_BUFFER_LENGTH) NUL MSG_BUFFER_LENGTH;
      cmd ← init_Command (Ptr uninitialised_Command);
      '(_, cmd) ← parse_input in_msg cmd;
      cmd ← deref cmd;
      '(command_result, str_buffer) ←
        match key cmd with
        | COMMAND_MAC => process_cmd_mac cmd str_buffer
        | COMMAND_ID => process_cmd_id cmd str_buffer
        | COMMAND_STATUS => process_cmd_status cmd str_buffer
        | COMMAND_DEC => process_cmd_dec cmd str_buffer
        | COMMAND_UNKNOWN => Some (1, str_buffer)
        end;
      if bool_decide (command_result ≠ 0) then Some (command_result, out_msg)
      else
        str_buffer ← store str_buffer (MSG_BUFFER_LENGTH - 1) NUL;
        out ← strncpy out str_buffer MSG_BUFFER_LENGTH;
        Some (0, Ptr out)
  | _, _ => Some (-1, out_msg)
  end.

(** What a caller reads back from an output buffer. *)
Definition response (r : option (Z * ptr (list ascii))) : option (Z * list ascii) :=
  '(st, out) ← r; buf ← deref out; s ← c_str buf; Some (st, s).

(** ** Vocabulary of the specification *)

(** The characters of a string literal, without the terminator. *)
Definition chars (s : string) : list ascii := list_ascii_of_string s.

(** An array of [n] bytes that holds [s] and is zero from there on. *)
Definition padded (n : nat) (s : list ascii) : list ascii :=
  s ++ replicate (n - length s) NUL.

(** The first blank-delimited field of a line, and what follows the
    blank that ends it. *)
Fixpoint split_line (s : list ascii) : list ascii * list ascii :=
  match s with
  | [] => ([], [])
  | c :: r =>
      if is_blank c then ([], r)
      else let '(w, a) := split_line r in (c :: w, a)
  end.

Definition token_of (name : list ascii) : CommandToken :=
  if decide (name = chars "mac") then COMMAND_MAC
  else if decide (name = chars "id") then COMMAND_ID
  else if decide (name = chars "status") then COMMAND_STATUS
  else if decide (name = chars "dec") then COMMAND_DEC
  else COMMAND_UNKNOWN.

(** The command words and their tokens. *)
Definition known_commands : list (string * CommandToken) :=
  [("mac"%string, COMMAND_MAC); ("id"%string, COMMAND_ID);
   ("status"%string, COMMAND_STATUS); ("dec"%string, COMMAND_DEC)].

(** A [Command] whose two arrays have their declared size. *)
Definition sized (cmd : Command) : Prop :=
  length (command cmd) = MSG_BUFFER_LENGTH ∧ length (argument cmd) = MSG_BUFFER_LENGTH.

(** The command the tokenizer is to build from the line [s]. *)
Definition tokenized (s : list ascii) : Command :=
  let name := tolower <$> (split_line s).1 in
  mkCommand (token_of name) (padded MSG_BUFFER_LENGTH name)
    (padded MSG_BUFFER_LENGTH (split_line s).2).

Definition is_uint8 (b : Z) : Prop := 0 ≤ b < 256.

(** An uppercase hexadecimal digit. *)
Definition hex_digit (d : Z) : ascii :=
  if d <? 10 then ascii_of_nat (Z.to_nat (48 + d)) else ascii_of_nat (Z.to_nat (65 + d - 10)).

Definition hex_byte (b : Z) : list ascii := [hex_digit (b / 16); hex_digit (b mod 16)].

(** Groups joined by a separator, none at the end. *)
Fixpoint join (sp : ascii) (groups : list (list ascii)) : list ascii :=
  match groups with
  | [] => []
  | [g] => g
  | g :: rest => g ++ sp :: join sp rest
  end.

Definition format_mac (mac : list Z) : list ascii := join ":"%char (hex_byte <$> mac).

(** The number a string of decimal digits denotes. *)
Definition decimal_value (ds : list ascii) : Z :=
  foldl (λ acc c, acc * 10 + (code c - 48)) 0 ds.

(** What the numeric handler reads from its argument [num]: the value
    and the offset of [end], as the code computes them. *)
Definition dec_parse (num : list ascii) : Z * nat :=
  let base := dec_base num in
  if base =? 10 then strtoul_from num 0 base
  else if base =? 8 then strtoul_from num 1 base
  else strtoul_from num 2 base.

(** The two tests that lead the handler to its error message. *)
Definition dec_rejects (num : list ascii) : bool :=
  bool_decide ((dec_parse num).2 = O)
  || negb (bool_decide (str_at num (dec_parse num).2 = NUL))
  || (0xFFFF <? (dec_parse num).1).

Definition dec_response (num : list ascii) : list ascii :=
  if dec_rejects num then chars "ARGUMENT ERROR" else utoa (dec_parse num).1.

(** The argument shape of the lenient path: blanks, an optional plus
    sign, and a decimal numeral. *)
Definition lenient (ws sg ds : list ascii) : Prop :=
  Forall (λ c, is_blank c = true) ws
  ∧ (sg = [] ∨ sg = ["+"%char])
  ∧ ds ≠ []
  ∧ Forall (λ c, isdigit c = true) ds.

(** The number of characters the handler skips for the base prefix. *)
Definition dec_skip (num : list ascii) : nat :=
  if dec_base num =? 10 then 0%nat else if dec_base num =? 8 then 1%nat else 2%nat.

(** The design document's three reasons for the error message: nothing
    left after the base prefix, a character left unconsumed, or a value
    beyond 16 bits. *)
Definition documented_rejects (num : list ascii) : bool :=
  bool_decide (drop (dec_skip num) num = [])
  || bool_decide ((dec_parse num).2 < length num)%nat
  || (0xFFFF <? (dec_parse num).1).

(** The line [s] has the command field [w] and the argument [a]: [w]
    holds no blank, and [s] is [w] alone or [w], one blank and [a]. *)
Definition line_of (w a s : list ascii) : Prop :=
  Forall (λ c, is_blank c = false) w
  ∧ (s = w ∧ a = [] ∨ ∃ b, is_blank b = true ∧ s = w ++ b :: a).

(** The number a string of digits denotes in a base. *)
Definition numeral_value (base : Z) (ds : list ascii) : Z :=
  foldl (λ acc c, acc * base + default 0 (digit_val c)) 0 ds.

(** The text the [status] format expands to. *)
Definition status_text : list ascii :=
  chars "SYSTEM_UPTIME: " ++ lltoa (Z.quot esp_timer_get_time 1000000)
  ++ chars " S " ++ [newline]
  ++ chars "AVAILABLE CORES: " ++ utoa (cast_uint32 chip_info_cores)
  ++ chars " " ++ [newline]
  ++ chars "AVAILABLE HEAP MEMORY: "
  ++ utoa (cast_uint32 (cast_uint32 esp_get_free_heap_size)).

(** The handler the dispatcher's [switch] binds to a token; an unknown
    token has none and stands for status 1. *)
Definition handler_of (k : CommandToken) : Command → list ascii → option (Z * list ascii) :=
  match k with
  | COMMAND_MAC => process_cmd_mac
  | COMMAND_ID => process_cmd_id
  | COMMAND_STATUS => process_cmd_status
  | COMMAND_DEC => process_cmd_dec
  | COMMAND_UNKNOWN => λ _ str_buffer, Some (1, str_buffer)
  end.

(** ** Proof steps used throughout *)

(** Decide a closed question by evaluation. *)
Ltac no_nul := apply (bool_decide_unpack _); vm_compute; exact I.

(** Reduce the binds of the [option] monad, and nothing else. *)
Tactic Notation "monad" :=
  cbn [mbind option_bind fmap option_fmap option_map mret option_ret deref fst snd].
Tactic Notation "monad" "in" hyp(H) :=
  cbn [mbind option_bind fmap option_fmap option_map mret option_ret deref fst snd] in H.

(** The four facts of [utoa_spec] for a one-digit number. *)
Ltac one_digit :=
  split; [by repeat constructor|split; [done|split; [simpl; lia|done]]].

(** ** Facts about the library model *)

Lemma c_str_app (s junk : list ascii) :
  NUL ∉ s → c_str (s ++ NUL :: junk) = Some s.
Proof.
  induction s as [|c s IH]; intros Hs; cbn [app c_str].
  - by rewrite decide_True.
  - rewrite decide_False by (intros ->; apply Hs; left).
    rewrite IH; [done|]. intros ?; apply Hs. by right.
Qed.

Lemma c_str_inv (buf s : list ascii) :
  c_str buf = Some s → (NUL ∉ s) ∧ buf = s ++ NUL :: drop (S (length s)) buf.
Proof.
  revert s; induction buf as [|c buf IH]; intros s; cbn [c_str]; [done|].
  case_decide as Hc.
  - intros [= <-]. split; [apply not_elem_of_nil|]. simpl. by rewrite Hc, drop_0.
  - destruct (c_str buf) as [t|] eqn:Ht; simpl; [|done].
    intros [= <-]. destruct (IH t eq_refl) as [Hn Hb]. split.
    + rewrite elem_of_cons. intros [?|?]; [by apply Hc|done].
    + simpl. by rewrite <- Hb.
Qed.

Lemma c_str_length (buf s : list ascii) :
  c_str buf = Some s → (length s < length buf)%nat.
Proof.
  intros H. destruct (c_str_inv _ _ H) as [_ ->].
  rewrite length_app; simpl. lia.
Qed.

Lemma c_str_padded (n : nat) (s : list ascii) :
  NUL ∉ s → (length s < n)%nat → c_str (padded n s) = Some s.
Proof.
  intros Hs Hn. unfold padded.
  destruct (n - length s)%nat as [|k] eqn:Hk; [lia|].
  simpl. by apply c_str_app.
Qed.

Lemma length_padded (n : nat) (s : list ascii) :
  (length s ≤ n)%nat → length (padded n s) = n.
Proof. intros. unfold padded. rewrite length_app, length_replicate. lia. Qed.

Lemma store_lt (buf : list ascii) (i : nat) (c : ascii) :
  (i < length buf)%nat → store buf i c = Some (<[i:=c]> buf).
Proof. intros. unfold store. by rewrite decide_True. Qed.

Lemma store_padded (n : nat) (w : list ascii) (c : ascii) :
  (length w < n)%nat → store (padded n w) (length w) c = Some (padded n (w ++ [c])).
Proof.
  intros Hn. rewrite store_lt by (rewrite length_padded; lia).
  f_equal. unfold padded. rewrite length_app; simpl.
  destruct (n - length w)%nat as [|k] eqn:Hk; [lia|].
  replace (n - (length w + 1))%nat with k by lia.
  rewrite insert_app_r_alt by lia. rewrite Nat.sub_diag. simpl.
  by rewrite <- app_assoc.
Qed.

Lemma write_bytes_le (dst bytes : list ascii) :
  (length bytes ≤ length dst)%nat →
  write_bytes dst bytes = Some (bytes ++ drop (length bytes) dst).
Proof. intros. unfold write_bytes. by rewrite decide_True. Qed.

Lemma memset_all (buf : list ascii) (c : ascii) :
  memset buf c (length buf) = Some (replicate (length buf) c).
Proof.
  unfold memset. rewrite write_bytes_le by (by rewrite length_replicate).
  rewrite length_replicate, drop_all. by rewrite app_nil_r.
Qed.

Lemma strcmp_chars_0 (a b : list ascii) : strcmp_chars a b = 0 ↔ a = b.
Proof.
  revert b; induction a as [|x a IH]; intros [|y b]; simpl; try done.
  case_decide as Hxy.
  - subst. rewrite IH. split; [by intros ->|by intros [= ->]].
  - split; [by destruct (code x <? code y)|by intros [= -> _]].
Qed.

Lemma tolower_NUL (c : ascii) : tolower c = NUL ↔ c = NUL.
Proof.
  destruct c as [[] [] [] [] [] [] [] []]; vm_compute; split; congruence.
Qed.

(** ** The tokenizer *)

Lemma foldlM_app {A S : Type} (f : S → A → option S) (s : S) (l1 l2 : list A) :
  foldlM f s (l1 ++ l2) = s' ← foldlM f s l1; foldlM f s' l2.
Proof.
  revert s; induction l1 as [|a l1 IH]; intros s; simpl; [done|].
  destruct (f s a); simpl; [apply IH|done].
Qed.

(** Walking the indices of a segment of the input is walking its
    characters. *)
Lemma parse_input_loop_chars (pre q post : list ascii) (st : Scan) :
  foldlM (parse_input_step (pre ++ q ++ post)) st (seq (length pre) (length q))
  = foldlM parse_input_switch st q.
Proof.
  revert pre st; induction q as [|c q IH]; intros pre st; simpl; [done|].
  assert (parse_input_step (pre ++ c :: q ++ post) st (length pre)
          = parse_input_switch st c) as ->.
  { unfold parse_input_step. by rewrite list_lookup_middle. }
  destruct (parse_input_switch st c) as [st'|]; simpl; [|done].
  specialize (IH (pre ++ [c]) st').
  rewrite length_app, <- app_assoc in IH. simpl in IH.
  by rewrite Nat.add_1_r in IH.
Qed.

Lemma switch_command (c : ascii) (w arg : list ascii) (k : CommandToken) :
  is_blank c = false →
  (length w < MSG_BUFFER_LENGTH)%nat →
  parse_input_switch
    (mkScan (length w) false target_command
       (mkCommand k (padded MSG_BUFFER_LENGTH w) arg)) c
  = Some (mkScan (S (length w)) false target_command
            (mkCommand k (padded MSG_BUFFER_LENGTH (w ++ [tolower c])) arg)).
Proof.
  intros Hc Hlen. unfold parse_input_switch; simpl.
  rewrite Hc; simpl. by rewrite store_padded.
Qed.

Lemma switch_argument (c : ascii) (w name : list ascii) (k : CommandToken) :
  (length w < MSG_BUFFER_LENGTH)%nat →
  parse_input_switch
    (mkScan (length w) true target_argument
       (mkCommand k name (padded MSG_BUFFER_LENGTH w))) c
  = Some (mkScan (S (length w)) true target_argument
            (mkCommand k name (padded MSG_BUFFER_LENGTH (w ++ [c])))).
Proof.
  intros Hlen. unfold parse_input_switch; simpl.
  rewrite andb_false_r; simpl. by rewrite store_padded.
Qed.

Lemma switch_split (c : ascii) (n : nat) (tg : Target) (cmd : Command) :
  is_blank c = true →
  parse_input_switch (mkScan n false tg cmd) c = Some (mkScan O true target_argument cmd).
Proof. intros Hc. unfold parse_input_switch; simpl. by rewrite Hc. Qed.

(** Before the split, every character that is not a blank goes to the
    command word in lower case. *)
Lemma fill_command (q w arg : list ascii) (k : CommandToken) :
  Forall (λ c, is_blank c = false) q →
  (length w + length q < MSG_BUFFER_LENGTH)%nat →
  foldlM parse_input_switch
    (mkScan (length w) false target_command
       (mkCommand k (padded MSG_BUFFER_LENGTH w) arg)) q
  = Some (mkScan (length w + length q) false target_command
            (mkCommand k (padded MSG_BUFFER_LENGTH (w ++ (tolower <$> q))) arg)).
Proof.
  revert w; induction q as [|c q IH]; intros w Hq Hlen; simpl in *.
  - by rewrite Nat.add_0_r, app_nil_r.
  - inversion_clear Hq as [|? ? Hc Hq'].
    rewrite switch_command by (done || lia). simpl.
    specialize (IH (w ++ [tolower c]) Hq').
    rewrite length_app, <- app_assoc in IH. simpl in IH.
    rewrite Nat.add_1_r in IH. rewrite IH by lia.
    do 2 f_equal; lia.
Qed.

(** After the split, every character goes to the argument as it is. *)
Lemma fill_argument (q w name : list ascii) (k : CommandToken) :
  (length w + length q < MSG_BUFFER_LENGTH)%nat →
  foldlM parse_input_switch
    (mkScan (length w) true target_argument
       (mkCommand k name (padded MSG_BUFFER_LENGTH w))) q
  = Some (mkScan (length w + length q) true target_argument
            (mkCommand k name (padded MSG_BUFFER_LENGTH (w ++ q)))).
Proof.
  revert w; induction q as [|c q IH]; intros w Hlen; simpl in *.
  - by rewrite Nat.add_0_r, app_nil_r.
  - rewrite switch_argument by lia. simpl.
    specialize (IH (w ++ [c])).
    rewrite length_app, <- app_assoc in IH. simpl in IH.
    rewrite Nat.add_1_r in IH. rewrite IH by lia.
    do 2 f_equal; lia.
Qed.

Lemma split_line_spec (s : list ascii) :
  Forall (λ c, is_blank c = false) (split_line s).1 ∧
  (s = (split_line s).1 ∧ (split_line s).2 = []
   ∨ ∃ b, is_blank b = true ∧ s = (split_line s).1 ++ b :: (split_line s).2).
Proof.
  induction s as [|c s [IH1 IH2]]; simpl.
  - split; [constructor|by left].
  - destruct (is_blank c) eqn:Hc; simpl.
    + split; [constructor|]. right. by exists c.
    + destruct (split_line s) as [w a]; simpl in *. split; [by constructor|].
      destruct IH2 as [[-> ->]|(b & Hb & ->)]; [by left|]. right. by exists b.
Qed.

(** The loop as a whole. *)
Lemma parse_input_loop (s post : list ascii) (k : CommandToken) :
  (length s < MSG_BUFFER_LENGTH)%nat →
  ∃ st,
    foldlM (parse_input_step (s ++ post))
      (mkScan O false target_command
         (mkCommand k (replicate MSG_BUFFER_LENGTH NUL) (replicate MSG_BUFFER_LENGTH NUL)))
      (seq 0 (length s)) = Some st
    ∧ scanned st = mkCommand k
        (padded MSG_BUFFER_LENGTH (tolower <$> (split_line s).1))
        (padded MSG_BUFFER_LENGTH (split_line s).2).
Proof.
  intros Hlen.
  rewrite (parse_input_loop_chars [] s post).
  assert (Hz : replicate MSG_BUFFER_LENGTH NUL = padded MSG_BUFFER_LENGTH []).
  { unfold padded. simpl. by rewrite Nat.sub_0_r. }
  rewrite !Hz.
  destruct (split_line_spec s) as [Hw Hs].
  destruct (split_line s) as [w a]; simpl in *.
  destruct Hs as [[-> ->]|(b & Hb & ->)].
  - eexists. split; [apply (fill_command w [] _ k Hw); simpl; lia|done].
  - rewrite length_app in Hlen; simpl in Hlen.
    rewrite foldlM_app.
    rewrite (fill_command w [] _ k Hw) by (simpl; lia). simpl.
    rewrite switch_split by done.
    eexists. split; [apply (fill_argument a [] _ k); simpl; lia|done].
Qed.

Lemma init_Command_sized (cmd : Command) :
  sized cmd →
  init_Command (Ptr cmd)
  = Some (Ptr (mkCommand COMMAND_UNKNOWN
                 (replicate MSG_BUFFER_LENGTH NUL) (replicate MSG_BUFFER_LENGTH NUL))).
Proof.
  intros [Hc Ha]. unfold init_Command.
  rewrite <- Hc at 1. rewrite memset_all, Hc. simpl.
  rewrite <- Ha at 1. rewrite memset_all, Ha. done.
Qed.

Lemma is_str_padded (name : list ascii) (s : string) :
  NUL ∉ name → (length name < MSG_BUFFER_LENGTH)%nat → NUL ∉ chars s →
  is_str (padded MSG_BUFFER_LENGTH name) s = Some (bool_decide (name = chars s)).
Proof.
  intros Hn Hlen Hs. unfold is_str, strcmp, lit.
  rewrite c_str_padded by done. simpl.
  fold (chars s). rewrite c_str_app by done. simpl.
  f_equal. apply bool_decide_ext, strcmp_chars_0.
Qed.

Lemma split_line_name (s : list ascii) :
  NUL ∉ s →
  (NUL ∉ tolower <$> (split_line s).1) ∧ (length (tolower <$> (split_line s).1) ≤ length s)%nat.
Proof.
  intros Hs. destruct (split_line_spec s) as [_ Hw].
  rewrite length_fmap. split.
  - rewrite list_elem_of_fmap. intros (c & Hc & Hin).
    symmetry in Hc. apply (proj1 (tolower_NUL c)) in Hc. subst c. apply Hs.
    destruct Hw as [[Hw _]|(b & _ & Hw)]; rewrite Hw; [done|].
    apply elem_of_app. by left.
  - destruct Hw as [[Hw _]|(b & _ & Hw)]; rewrite Hw at 2; [done|].
    rewrite length_app. lia.
Qed.

Lemma split_line_argument (s : list ascii) :
  NUL ∉ s → (NUL ∉ (split_line s).2) ∧ (length (split_line s).2 ≤ length s)%nat.
Proof.
  intros Hs. destruct (split_line_spec s) as [_ [[_ ->]|(b & _ & Hw)]].
  - split; [apply not_elem_of_nil|simpl; lia].
  - split.
    + intros Hin. apply Hs. rewrite Hw. apply elem_of_app. right. by right.
    + rewrite Hw at 2. rewrite length_app. simpl. lia.
Qed.

(** The tokenizer on a line that fits: it builds [tokenized s]. *)
Lemma parse_input_spec (in_msg s : list ascii) (cmd : Command) :
  c_str in_msg = Some s →
  (length s < MSG_BUFFER_LENGTH)%nat →
  sized cmd →
  parse_input (Ptr in_msg) (Ptr cmd) = Some (0, Ptr (tokenized s)).
Proof.
  intros Hin Hlen Hcmd.
  destruct (c_str_inv _ _ Hin) as [Hnul Hbuf].
  unfold parse_input, strlen. rewrite Hin. monad.
  rewrite decide_False by lia.
  rewrite init_Command_sized by done. monad.
  rewrite Hbuf.
  destruct (parse_input_loop s (NUL :: drop (S (length s)) in_msg) COMMAND_UNKNOWN Hlen)
    as (st & -> & Hst).
  monad. rewrite Hst. cbn [command].
  destruct (split_line_name s Hnul) as [Hn1 Hn2].
  set (name := tolower <$> (split_line s).1) in *.
  unfold tokenized, token_of. fold name.
  rewrite !is_str_padded by (done || lia || no_nul).
  destruct (decide (name = chars "mac")) as [E|E];
    [by rewrite (bool_decide_eq_true_2 _ E)|rewrite (bool_decide_eq_false_2 _ E); monad].
  destruct (decide (name = chars "id")) as [E1|E1];
    [by rewrite (bool_decide_eq_true_2 _ E1)|rewrite (bool_decide_eq_false_2 _ E1); monad].
  destruct (decide (name = chars "status")) as [E2|E2];
    [by rewrite (bool_decide_eq_true_2 _ E2)|rewrite (bool_decide_eq_false_2 _ E2); monad].
  destruct (decide (name = chars "dec")) as [E3|E3];
    [by rewrite (bool_decide_eq_true_2 _ E3)|by rewrite (bool_decide_eq_false_2 _ E3)].
Qed.

(** The tokenizer on a line that does not fit. *)
Lemma parse_input_overlong (in_msg s : list ascii) (cmd : Command) :
  c_str in_msg = Some s →
  (MSG_BUFFER_LENGTH ≤ length s)%nat →
  parse_input (Ptr in_msg) (Ptr cmd) = Some (-2, Ptr cmd).
Proof.
  intros Hin Hlen. unfold parse_input, strlen. rewrite Hin. monad.
  by rewrite decide_True.
Qed.

(** ** Writing and reading back strings *)

Lemma strcpy_lit (dst : list ascii) (s : string) :
  NUL ∉ chars s → (length (chars s) < length dst)%nat →
  strcpy dst (lit s) = Some (chars s ++ NUL :: drop (S (length (chars s))) dst).
Proof.
  intros Hs Hlen. unfold strcpy, lit. fold (chars s).
  rewrite c_str_app by done. monad.
  rewrite write_bytes_le by (rewrite length_app; simpl; lia).
  rewrite length_app, <- app_assoc. simpl. by rewrite Nat.add_1_r.
Qed.

Lemma snprintf_spec (dst text : list ascii) (n : nat) :
  (0 < n ≤ length dst)%nat →
  snprintf dst n text = Some (take (n - 1) text ++ NUL :: drop (S (length (take (n - 1) text))) dst).
Proof.
  intros Hn. unfold snprintf. destruct n as [|m]; [lia|].
  replace (S m - 1)%nat with m by lia.
  assert (length (take m text) ≤ m)%nat by (rewrite length_take; lia).
  rewrite write_bytes_le by (rewrite length_app; simpl; lia).
  rewrite length_app, <- app_assoc. simpl. by rewrite Nat.add_1_r.
Qed.

Lemma c_strn_of_c_str (buf text : list ascii) (n : nat) :
  c_str buf = Some text → (length text < n)%nat → c_strn buf n = Some text.
Proof.
  revert buf text; induction n as [|n IH]; intros buf text Hb Hn; [lia|].
  destruct buf as [|c buf]; [done|]. cbn [c_str c_strn] in *.
  case_decide; [done|].
  destruct (c_str buf) as [t|] eqn:Ht; [|done].
  monad in Hb. injection Hb as <-. simpl in Hn.
  rewrite (IH buf t) by (done || lia). done.
Qed.

Lemma store_NUL_c_str (buf text : list ascii) (i : nat) :
  c_str buf = Some text → (length text ≤ i < length buf)%nat →
  ∃ buf', store buf i NUL = Some buf' ∧ c_str buf' = Some text.
Proof.
  intros Hb Hi. destruct (c_str_inv _ _ Hb) as [Hn Heq].
  rewrite store_lt by lia. eexists; split; [done|].
  rewrite Heq. rewrite insert_app_r_alt by lia.
  destruct (i - length text)%nat as [|j]; simpl; by apply c_str_app.
Qed.

(** The dispatcher's epilogue: terminate the transient buffer at its
    last byte and copy it out. *)
Lemma copy_out (buf text out : list ascii) :
  length buf = MSG_BUFFER_LENGTH →
  c_str buf = Some text →
  (MSG_BUFFER_LENGTH ≤ length out)%nat →
  (buf' ← store buf (MSG_BUFFER_LENGTH - 1) NUL;
   out' ← strncpy out buf' MSG_BUFFER_LENGTH;
   Some (0, Ptr out'))
  = Some (0, Ptr (padded MSG_BUFFER_LENGTH text ++ drop MSG_BUFFER_LENGTH out)).
Proof.
  intros Hlen Hb Hout. pose proof (c_str_length _ _ Hb) as Ht.
  destruct (store_NUL_c_str buf text (MSG_BUFFER_LENGTH - 1) Hb) as (buf' & -> & Hb'); [lia|].
  monad. unfold strncpy.
  rewrite (c_strn_of_c_str _ _ _ Hb') by lia. monad.
  fold (padded MSG_BUFFER_LENGTH text).
  rewrite write_bytes_le by (rewrite length_padded; lia). monad.
  by rewrite length_padded by lia.
Qed.

Lemma length_alloca (n : nat) : length (alloca n) = n.
Proof. apply length_replicate. Qed.

Lemma memset_alloca (n : nat) (c : ascii) : memset (alloca n) c n = Some (replicate n c).
Proof.
  pose proof (memset_all (alloca n) c) as H. by rewrite length_alloca in H.
Qed.

Lemma sized_uninitialised : sized uninitialised_Command.
Proof. split; apply length_alloca. Qed.

(** ** The dispatcher, unfolded *)

(** A line that fits runs the handler of its token on a zeroed buffer. *)
Lemma process_command_fits (in_msg s out : list ascii) :
  c_str in_msg = Some s →
  (length s < MSG_BUFFER_LENGTH)%nat →
  process_command (Ptr in_msg) (Ptr out)
  = '(command_result, str_buffer) ←
      match key (tokenized s) with
      | COMMAND_MAC => process_cmd_mac (tokenized s) (replicate MSG_BUFFER_LENGTH NUL)
      | COMMAND_ID => process_cmd_id (tokenized s) (replicate MSG_BUFFER_LENGTH NUL)
      | COMMAND_STATUS => process_cmd_status (tokenized s) (replicate MSG_BUFFER_LENGTH NUL)
      | COMMAND_DEC => process_cmd_dec (tokenized s) (replicate MSG_BUFFER_LENGTH NUL)
      | COMMAND_UNKNOWN => Some (1, replicate MSG_BUFFER_LENGTH NUL)
      end;
    if bool_decide (command_result ≠ 0) then Some (command_result, Ptr out)
    else
      str_buffer ← store str_buffer (MSG_BUFFER_LENGTH - 1) NUL;
      out ← strncpy out str_buffer MSG_BUFFER_LENGTH;
      Some (0, Ptr out).
Proof.
  intros Hin Hlen. unfold process_command.
  rewrite memset_alloca. monad.
  rewrite init_Command_sized by apply sized_uninitialised. monad.
  rewrite (parse_input_spec in_msg s) by (done || (split; apply length_replicate)).
  monad. done.
Qed.

(** A line that does not fit leaves the token unknown. *)
Lemma process_command_overlong (in_msg s out : list ascii) :
  c_str in_msg = Some s →
  (MSG_BUFFER_LENGTH ≤ length s)%nat →
  process_command (Ptr in_msg) (Ptr out) = Some (1, Ptr out).
Proof.
  intros Hin Hlen. unfold process_command.
  rewrite memset_alloca. monad.
  rewrite init_Command_sized by apply sized_uninitialised. monad.
  rewrite (parse_input_overlong in_msg s) by done.
  monad. cbn [key]. monad. done.
Qed.

(** ** The handlers report success *)

Lemma process_cmd_mac_status (cmd : Command) (buf b : list ascii) (r : Z) :
  process_cmd_mac cmd buf = Some (r, b) → r = 0.
Proof.
  unfold process_cmd_mac. intros H.
  repeat (apply bind_Some in H as (? & _ & H)). by injection H as <- _.
Qed.

Lemma process_cmd_id_status (cmd : Command) (buf b : list ascii) (r : Z) :
  process_cmd_id cmd buf = Some (r, b) → r = 0.
Proof.
  unfold process_cmd_id. intros H.
  apply bind_Some in H as (? & _ & H). by injection H as <- _.
Qed.

Lemma process_cmd_status_status (cmd : Command) (buf b : list ascii) (r : Z) :
  process_cmd_status cmd buf = Some (r, b) → r = 0.
Proof.
  unfold process_cmd_status. intros H.
  apply bind_Some in H as (? & _ & H). by injection H as <- _.
Qed.

Lemma process_cmd_dec_status (cmd : Command) (buf b : list ascii) (r : Z) :
  process_cmd_dec cmd buf = Some (r, b) → r = 0.
Proof.
  unfold process_cmd_dec. intros H.
  apply bind_Some in H as (num & _ & H).
  repeat case_match; apply bind_Some in H as (? & _ & H); by injection H as <- _.
Qed.

(** ** The MAC formatter *)

Lemma hexmap_lookup (d : Z) :
  0 ≤ d < 16 → hexmap !! Z.to_nat d = Some (hex_digit d).
Proof.
  intros Hd.
  assert (d = 0 ∨ d = 1 ∨ d = 2 ∨ d = 3 ∨ d = 4 ∨ d = 5 ∨ d = 6 ∨ d = 7 ∨ d = 8
          ∨ d = 9 ∨ d = 10 ∨ d = 11 ∨ d = 12 ∨ d = 13 ∨ d = 14 ∨ d = 15) as Hcases by lia.
  repeat (destruct Hcases as [->|Hcases]; [reflexivity|]). by subst.
Qed.

(** The two nibbles, as the code extracts them. *)
Lemma low_nibble (b : Z) : Z.land b 0x0F = b mod 16.
Proof. exact (Z.land_ones b 4 ltac:(lia)). Qed.

Lemma high_nibble (b : Z) : is_uint8 b → Z.shiftr (Z.land b 0xF0) 4 = b / 16.
Proof.
  intros Hb. rewrite Z.shiftr_land.
  change (Z.shiftr 0xF0 4) with (Z.ones 4).
  rewrite Z.land_ones by lia. rewrite Z.shiftr_div_pow2 by lia.
  change (2 ^ 4) with 16. apply Z.mod_small.
  unfold is_uint8 in Hb. split; [apply Z.div_pos; lia|apply Z.div_lt_upper_bound; lia].
Qed.

Lemma mac_to_string_step_spec (mac : list Z) (out : list ascii) (at_ i : nat) (b : Z) :
  mac !! i = Some b → is_uint8 b →
  (at_ + 1 < length out)%nat → ((i < 5)%nat → (at_ + 2 < length out)%nat) →
  mac_to_string_step mac (out, at_) i
  = Some (if decide (i < 5)%nat
          then (<[(at_ + 2)%nat:=sep]> (<[(at_ + 1)%nat:=hex_digit (b mod 16)]>
                  (<[at_:=hex_digit (b / 16)]> out)), (at_ + 3)%nat)
          else (<[(at_ + 1)%nat:=hex_digit (b mod 16)]>
                  (<[at_:=hex_digit (b / 16)]> out), (at_ + 2)%nat)).
Proof.
  intros Hi Hb Hat Hat'. unfold mac_to_string_step. rewrite Hi. monad.
  rewrite high_nibble, low_nibble by done.
  assert (0 ≤ b / 16 < 16).
  { unfold is_uint8 in Hb. split; [apply Z.div_pos; lia|apply Z.div_lt_upper_bound; lia]. }
  assert (0 ≤ b mod 16 < 16) by (apply Z.mod_pos_bound; lia).
  rewrite !hexmap_lookup by done. monad.
  rewrite store_lt by lia. monad.
  rewrite store_lt by (rewrite length_insert; lia). monad.
  case_decide; [|done].
  rewrite store_lt by (rewrite !length_insert; auto). done.
Qed.

(** The formatter overwrites the first 17 bytes of its output with the
    formatted address and touches nothing else. *)
Lemma mac_to_string_spec (mac : list Z) (out : list ascii) :
  length mac = 6%nat → Forall is_uint8 mac → (17 ≤ length out)%nat →
  mac_to_string (Ptr mac) (Ptr out) = Some (Ptr (format_mac mac ++ drop 17 out)).
Proof.
  intros Hmac Hb Hout.
  do 6 (destruct mac as [|? mac]; [done|]). destruct mac; [|done].
  repeat match goal with H : Forall _ (_ :: _) |- _ => inversion_clear H end.
  do 17 (destruct out as [|? out]; [simpl in Hout; lia|]).
  unfold mac_to_string. cbn [seq foldlM].
  repeat (erewrite mac_to_string_step_spec by (done || (simpl; lia));
          rewrite ?(decide_True (P := (_ < 5)%nat)) by lia;
          rewrite ?(decide_False (P := (_ < 5)%nat)) by lia; monad).
  reflexivity.
Qed.

Lemma process_cmd_mac_spec (cmd : Command) (buf : list ascii) :
  length esp_read_mac = 6%nat → Forall is_uint8 esp_read_mac → (21 ≤ length buf)%nat →
  process_cmd_mac cmd buf
  = Some (0, chars "MAC " ++ format_mac esp_read_mac ++ drop 21 buf).
Proof.
  intros Hmac Hb Hlen. unfold process_cmd_mac.
  rewrite strcpy_lit by (no_nul || (simpl; lia)). monad.
  unfold strlen, lit. fold (chars "MAC "). rewrite c_str_app by no_nul. monad.
  change (length (chars "MAC ")) with 4%nat.
  rewrite drop_app_length' by done.
  rewrite mac_to_string_spec by (done || (simpl; rewrite length_drop; lia)). monad.
  rewrite take_app_length' by done.
  do 3 f_equal. simpl. by rewrite drop_drop.
Qed.

(** ** Decimal output *)

Lemma log2_div10 (n : Z) : 10 ≤ n → Z.log2 (n / 10) < Z.log2 n.
Proof.
  intros Hn. apply Z.log2_lt_pow2; [apply Z.div_str_pos; lia|].
  pose proof (Z.log2_spec n ltac:(lia)) as [_ Hup].
  rewrite Z.pow_succ_r in Hup by apply Z.log2_nonneg.
  apply Z.div_lt_upper_bound; lia.
Qed.

Lemma utoa_fuel_any (f1 f2 : nat) (n : Z) :
  0 ≤ n → Z.log2 n < Z.of_nat f1 → Z.log2 n < Z.of_nat f2 →
  utoa_fuel f1 n = utoa_fuel f2 n.
Proof.
  revert f2 n; induction f1 as [|f1 IH]; intros f2 n Hn H1 H2.
  - pose proof (Z.log2_nonneg n). lia.
  - destruct f2 as [|f2]; [pose proof (Z.log2_nonneg n); lia|].
    simpl. destruct (n <? 10) eqn:Hlt; [done|].
    apply Z.ltb_ge in Hlt. pose proof (log2_div10 n Hlt).
    f_equal. apply IH; [apply Z.div_pos; lia|lia|lia].
Qed.

Lemma utoa_unfold (n : Z) :
  0 ≤ n →
  utoa n = (if n <? 10 then [] else utoa (n / 10)) ++ [digit_char (n mod 10)].
Proof.
  intros Hn. unfold utoa at 1. cbn [utoa_fuel].
  destruct (n <? 10) eqn:Hlt; [done|].
  apply Z.ltb_ge in Hlt. pose proof (log2_div10 n Hlt).
  pose proof (Z.log2_nonneg (n / 10)).
  f_equal. unfold utoa. apply utoa_fuel_any; [apply Z.div_pos; lia|lia|lia].
Qed.

Lemma digit_char_code (d : Z) : 0 ≤ d < 10 → code (digit_char d) = 48 + d.
Proof.
  intros Hd. unfold code, digit_char.
  rewrite nat_ascii_embedding by lia. lia.
Qed.

Lemma decimal_value_snoc (ds : list ascii) (c : ascii) :
  decimal_value (ds ++ [c]) = decimal_value ds * 10 + (code c - 48).
Proof. unfold decimal_value. by rewrite foldl_app. Qed.

(** [utoa] writes the decimal numeral of its argument: digits only,
    denoting the number, at most [k] of them below [10 ^ k], and no
    leading zero but for the number 0 itself. *)
Lemma utoa_spec (k : nat) (n : Z) :
  0 ≤ n < 10 ^ Z.of_nat (S k) →
  Forall (λ c, isdigit c = true) (utoa n)
  ∧ decimal_value (utoa n) = n
  ∧ (0 < length (utoa n) ≤ S k)%nat
  ∧ (head (utoa n) = Some "0"%char → n = 0).
Proof.
  revert n; induction k as [|k IH]; intros n Hn; rewrite utoa_unfold by lia.
  - change (10 ^ Z.of_nat 1) with 10 in Hn.
    rewrite (proj2 (Z.ltb_lt n 10)) by lia. rewrite Z.mod_small by lia.
    assert (n = 0 ∨ n = 1 ∨ n = 2 ∨ n = 3 ∨ n = 4 ∨ n = 5 ∨ n = 6 ∨ n = 7 ∨ n = 8 ∨ n = 9)
      as Hcases by lia.
    repeat (destruct Hcases as [->|Hcases]; [one_digit|]). subst. one_digit.
  - destruct (n <? 10) eqn:Hlt.
    + apply Z.ltb_lt in Hlt. rewrite Z.mod_small by lia.
      assert (n = 0 ∨ n = 1 ∨ n = 2 ∨ n = 3 ∨ n = 4 ∨ n = 5 ∨ n = 6 ∨ n = 7 ∨ n = 8 ∨ n = 9)
        as Hcases by lia.
      repeat (destruct Hcases as [->|Hcases]; [one_digit|]). subst. one_digit.
    + apply Z.ltb_ge in Hlt.
      assert (0 < n / 10 < 10 ^ Z.of_nat (S k)) as Hq.
      { split; [apply Z.div_str_pos; lia|].
        apply Z.div_lt_upper_bound; [lia|].
        rewrite <- Z.pow_succ_r by lia. rewrite <- Nat2Z.inj_succ. lia. }
      destruct (IH (n / 10) ltac:(lia)) as (Hd & Hv & Hl & Hz).
      pose proof (Z.mod_pos_bound n 10 ltac:(lia)) as Hm.
      split; [|split; [|split]].
      * apply Forall_app. split; [done|]. constructor; [|constructor].
        unfold isdigit. rewrite digit_char_code by done. lia.
      * rewrite decimal_value_snoc, Hv, digit_char_code by done.
        pose proof (Z.div_mod n 10 ltac:(lia)). lia.
      * rewrite length_app. simpl. lia.
      * destruct (utoa (n / 10)) as [|c u] eqn:Hu; [simpl in Hl; lia|].
        simpl. intros Hc. specialize (Hz Hc). lia.
Qed.

(** ** The numeric handler *)

Lemma cast_uint32_range (v : Z) : 0 ≤ cast_uint32 v < 2 ^ 32.
Proof. unfold cast_uint32. apply Z.mod_pos_bound. lia. Qed.

Lemma dec_parse_range (num : list ascii) : 0 ≤ (dec_parse num).1 < 2 ^ 32.
Proof.
  unfold dec_parse, strtoul_from.
  repeat case_match; simpl; apply cast_uint32_range.
Qed.

Lemma length_dec_response (num : list ascii) : (length (dec_response num) ≤ 14)%nat.
Proof.
  unfold dec_response. destruct (dec_rejects num) eqn:Hr; [simpl; lia|].
  unfold dec_rejects in Hr. apply orb_false_elim in Hr as [_ Hr].
  apply Z.ltb_ge in Hr. pose proof (dec_parse_range num).
  destruct (utoa_spec 4 (dec_parse num).1) as (_ & _ & ? & _); [simpl; lia|lia].
Qed.

(** The handler writes [dec_response] and a terminator at the head of
    its output buffer. *)
Lemma process_cmd_dec_spec (cmd : Command) (num buf : list ascii) :
  c_str (argument cmd) = Some num →
  (length (dec_response num) < MSG_BUFFER_LENGTH ≤ length buf)%nat →
  process_cmd_dec cmd buf
  = Some (0, dec_response num ++ NUL :: drop (S (length (dec_response num))) buf).
Proof.
  intros Harg Hlen.
  unfold process_cmd_dec. rewrite Harg. monad.
  fold (dec_parse num). unfold dec_response, dec_rejects in *.
  destruct (dec_parse num) as [con e]. cbn [fst snd] in *.
  destruct (bool_decide (e = O) || negb (bool_decide (str_at num e = NUL))); cbn [orb] in *.
  - unfold argument_error. rewrite strcpy_lit by (no_nul || (simpl in *; lia)). done.
  - destruct (0xFFFF <? con).
    + unfold argument_error. rewrite strcpy_lit by (no_nul || (simpl in *; lia)). done.
    + rewrite snprintf_spec by lia. monad.
      rewrite take_ge by lia. done.
Qed.

Lemma dec_response_no_NUL (num : list ascii) : NUL ∉ dec_response num.
Proof.
  unfold dec_response. destruct (dec_rejects num); [no_nul|].
  pose proof (dec_parse_range num).
  destruct (utoa_spec 9 (dec_parse num).1) as (Hd & _); [simpl; lia|].
  intros Hin. rewrite Forall_forall in Hd. by specialize (Hd _ Hin).
Qed.

(** A handler that left [text] and a terminator at the head of the
    zeroed buffer: the caller receives [text]. *)
Lemma copy_out_text (text tail out : list ascii) :
  NUL ∉ text →
  length (text ++ NUL :: tail) = MSG_BUFFER_LENGTH →
  (MSG_BUFFER_LENGTH ≤ length out)%nat →
  (buf' ← store (text ++ NUL :: tail) (MSG_BUFFER_LENGTH - 1) NUL;
   out' ← strncpy out buf' MSG_BUFFER_LENGTH;
   Some (0, Ptr out'))
  = Some (0, Ptr (padded MSG_BUFFER_LENGTH text ++ drop MSG_BUFFER_LENGTH out)).
Proof.
  intros Hn Hlen Hout. apply copy_out; [done| |done]. by apply c_str_app.
Qed.

Lemma c_str_copied (text out : list ascii) :
  NUL ∉ text → (length text < MSG_BUFFER_LENGTH)%nat →
  c_str (padded MSG_BUFFER_LENGTH text ++ drop MSG_BUFFER_LENGTH out) = Some text.
Proof.
  intros Hn Hlen. unfold padded.
  destruct (MSG_BUFFER_LENGTH - length text)%nat as [|k] eqn:Hk; [lia|].
  simpl. rewrite <- app_assoc. simpl. by apply c_str_app.
Qed.

Lemma c_str_lit (s : string) : NUL ∉ chars s → c_str (lit s) = Some (chars s).
Proof. intros. unfold lit. fold (chars s). by apply c_str_app. Qed.

(** A [dec] line that fits: the caller receives [dec_response] of what
    follows the first blank. *)
Lemma process_command_dec (in_msg s out : list ascii) :
  c_str in_msg = Some s →
  (length s < MSG_BUFFER_LENGTH)%nat →
  key (tokenized s) = COMMAND_DEC →
  (length (dec_response (split_line s).2) < MSG_BUFFER_LENGTH ≤ length out)%nat →
  process_command (Ptr in_msg) (Ptr out)
  = Some (0, Ptr (padded MSG_BUFFER_LENGTH (dec_response (split_line s).2)
                  ++ drop MSG_BUFFER_LENGTH out)).
Proof.
  intros Hin Hlen Hkey HN.
  destruct (c_str_inv _ _ Hin) as [Hnul _].
  destruct (split_line_argument s Hnul) as [Ha1 Ha2].
  rewrite (process_command_fits in_msg s) by done. rewrite Hkey.
  rewrite (process_cmd_dec_spec _ (split_line s).2)
    by (rewrite ?length_replicate; (lia || (apply c_str_padded; (done || lia)))).
  monad. rewrite bool_decide_eq_false_2 by (intros H; by apply H).
  rewrite copy_out_text; [done|apply dec_response_no_NUL| |lia].
  rewrite length_app. simpl. rewrite length_drop, length_replicate. lia.
Qed.

(** ** [strtoul] on a blank-and-sign prefixed decimal numeral *)

Lemma is_blank_isspace (c : ascii) : is_blank c = true → isspace c = true.
Proof.
  unfold is_blank. intros [H|H]%orb_true_iff; apply bool_decide_eq_true in H; by subst.
Qed.

Lemma isdigit_facts (c : ascii) :
  isdigit c = true →
  digit_val c = Some (code c - 48) ∧ 0 ≤ code c - 48 < 10
  ∧ isspace c = false ∧ c ≠ "-"%char ∧ c ≠ "+"%char ∧ is_blank c = false.
Proof.
  intros Hd. unfold digit_val. rewrite Hd.
  unfold isdigit in Hd. apply andb_true_iff in Hd as [H1%Z.leb_le H2%Z.leb_le].
  split; [done|]. split; [lia|].
  split.
  { unfold isspace. rewrite orb_false_iff, andb_false_iff, Z.eqb_neq, !Z.leb_gt. lia. }
  split; [intros ->; by apply H1|].
  split; [intros ->; by apply H1|].
  unfold is_blank.
  rewrite !bool_decide_eq_false_2; [done|intros ->; by apply H1..].
Qed.

Lemma skip_space_blanks (ws rest : list ascii) :
  Forall (λ c, is_blank c = true) ws →
  (∀ c, head rest = Some c → isspace c = false) →
  skip_space (ws ++ rest) = length ws.
Proof.
  intros Hws Hrest. induction Hws as [|c ws Hc _ IH]; simpl.
  - destruct rest as [|c rest]; [done|]. simpl. by rewrite Hrest.
  - by rewrite (is_blank_isspace c Hc), IH.
Qed.

Lemma scan_digits_decimal (ds : list ascii) (acc : Z) :
  Forall (λ c, isdigit c = true) ds →
  scan_digits 10 ds acc = (foldl (λ a c, a * 10 + (code c - 48)) acc ds, length ds).
Proof.
  intros Hds. revert acc. induction Hds as [|c ds Hc _ IH]; intros acc; simpl; [done|].
  destruct (isdigit_facts c Hc) as (-> & Hr & _).
  rewrite (proj2 (Z.ltb_lt _ 10)) by lia. by rewrite IH.
Qed.

Lemma scan_hex_prefix_other (base : Z) (s : list ascii) :
  base ≠ 16 → scan_hex_prefix base s = O.
Proof.
  intros Hb. unfold scan_hex_prefix.
  destruct s as [|? [|? [|? ?]]]; try done.
  by rewrite (proj2 (Z.eqb_neq base 16)).
Qed.

Lemma decimal_fold_nonneg (ds : list ascii) (acc : Z) :
  Forall (λ c, isdigit c = true) ds → 0 ≤ acc →
  0 ≤ foldl (λ a c, a * 10 + (code c - 48)) acc ds.
Proof.
  intros Hds. revert acc. induction Hds as [|c ds Hc _ IH]; intros acc Hacc; simpl; [done|].
  destruct (isdigit_facts c Hc) as (_ & Hr & _). apply IH. lia.
Qed.

Lemma strtoul_lenient (ws sg ds : list ascii) :
  lenient ws sg ds → decimal_value ds ≤ ULONG_MAX →
  strtoul (ws ++ sg ++ ds) 10 = (decimal_value ds, length (ws ++ sg ++ ds)).
Proof.
  intros (Hws & Hsg & Hne & Hds) Hv.
  destruct ds as [|d ds]; [done|]. clear Hne.
  pose proof (Forall_inv Hds) as Hd.
  destruct (isdigit_facts d Hd) as (_ & _ & Hsp & Hm & Hp & _).
  unfold strtoul.
  rewrite skip_space_blanks; [|done|].
  2:{ destruct Hsg as [->| ->]; simpl; intros c [= <-]; [done|reflexivity]. }
  rewrite drop_app_length.
  assert (scan_sign (sg ++ d :: ds) = (length sg, false)) as ->.
  { destruct Hsg as [->| ->]; simpl; [|done].
    by rewrite !decide_False. }
  rewrite scan_hex_prefix_other by done.
  rewrite !Nat.add_0_r.
  replace (drop (length ws + length sg) (ws ++ sg ++ d :: ds)) with (d :: ds)
    by (by rewrite app_assoc, <- length_app, drop_app_length).
  rewrite scan_digits_decimal by done.
  fold (decimal_value (d :: ds)). cbn [length].
  rewrite (proj2 (Z.ltb_ge _ _)) by lia.
  f_equal. rewrite !length_app. simpl. lia.
Qed.

(** Blanks or a sign in front keep the handler on its base 10 path. *)
Lemma dec_base_lenient (ws sg ds : list ascii) :
  lenient ws sg ds → ws ++ sg ≠ [] → dec_base (ws ++ sg ++ ds) = 10.
Proof.
  intros (Hws & Hsg & _ & _) Hne. unfold dec_base.
  assert (str_at (ws ++ sg ++ ds) 0 ≠ "0"%char) as Hhd.
  { destruct Hws as [|c ws Hc _].
    - destruct Hsg as [->| ->]; [done|]. simpl. unfold str_at. simpl. done.
    - unfold str_at. simpl. intros ->. done. }
  by rewrite (bool_decide_eq_false_2 _ Hhd).
Qed.

Lemma dec_response_lenient (ws sg ds : list ascii) :
  lenient ws sg ds → decimal_value ds ≤ 0xFFFF →
  dec_base (ws ++ sg ++ ds) = 10 →
  dec_response (ws ++ sg ++ ds) = utoa (decimal_value ds).
Proof.
  intros Hl Hv Hbase.
  assert (0 ≤ decimal_value ds) as Hv0.
  { destruct Hl as (_ & _ & _ & Hds). by apply decimal_fold_nonneg. }
  assert (dec_parse (ws ++ sg ++ ds) = (decimal_value ds, length (ws ++ sg ++ ds))) as Hp.
  { unfold dec_parse. rewrite Hbase. simpl. unfold strtoul_from. rewrite drop_0.
    rewrite strtoul_lenient by (done || (unfold ULONG_MAX; lia)).
    unfold cast_uint32. rewrite Z.mod_small by lia. done. }
  unfold dec_response, dec_rejects. rewrite Hp. cbn [fst snd].
  rewrite bool_decide_eq_false_2.
  2:{ destruct Hl as (_ & _ & Hne & _). rewrite !length_app.
      destruct ds; [done|simpl; lia]. }
  rewrite bool_decide_eq_true_2 by (unfold str_at; by rewrite lookup_ge_None_2).
  rewrite (proj2 (Z.ltb_ge _ _)) by lia. done.
Qed.

(** ** The dispatcher's contract *)

(** With both buffers present there are two ways out: status 1 with the
    output untouched, or status 0 with the output rewritten. *)
Lemma process_command_inv (in_buf out : list ascii) (st : Z) (out' : ptr (list ascii)) :
  process_command (Ptr in_buf) (Ptr out) = Some (st, out') →
  (st = 1 ∧ out' = Ptr out) ∨ (st = 0 ∧ ∃ o, out' = Ptr o ∧ length o = length out).
Proof.
  unfold process_command. intros H.
  destruct (memset _ _ _) as [sb|]; [|done]. monad in H.
  destruct (init_Command _) as [pc|]; [|done]. monad in H.
  destruct (parse_input _ pc) as [[z pc']|]; [|done]. monad in H.
  destruct pc' as [|cmd]; [done|]. monad in H.
  assert (∀ r b, match key cmd with
                 | COMMAND_MAC => process_cmd_mac cmd sb
                 | COMMAND_ID => process_cmd_id cmd sb
                 | COMMAND_STATUS => process_cmd_status cmd sb
                 | COMMAND_DEC => process_cmd_dec cmd sb
                 | COMMAND_UNKNOWN => Some (1, sb)
                 end = Some (r, b) → r = 0 ∨ r = 1) as Hstatus.
  { intros r b. destruct (key cmd);
      [intros [= <- _]; by right|left..];
      eauto using process_cmd_mac_status, process_cmd_id_status,
        process_cmd_status_status, process_cmd_dec_status. }
  destruct (match key cmd with COMMAND_UNKNOWN => _ | _ => _ end) as [[r b]|]; [|done].
  monad in H. destruct (Hstatus r b eq_refl) as [-> | ->].
  - rewrite bool_decide_eq_false_2 in H by (intros E; by apply E).
    destruct (store b _ _) as [b'|]; [|done]. monad in H.
    unfold strncpy, write_bytes in H.
    destruct (c_strn _ _) as [t|]; [|done]. monad in H.
    case_decide as Hle; [|done]. monad in H. injection H as <- <-.
    right. split; [done|]. eexists; split; [done|].
    rewrite length_app, length_drop. lia.
  - rewrite bool_decide_eq_true_2 in H by done. injection H as <- <-. by left.
Qed.

(** C8: when the input pointer or the output pointer is NULL,
    [process_command] returns -1.  It does so whatever the other pointer
    designates, even an array without a single accessible byte, whose
    every access is undefined, and the caller's buffer is left as it
    was: neither buffer is dereferenced. *)
Theorem null_buffer_status (in_msg out_msg : ptr (list ascii)) :
  in_msg = NULL ∨ out_msg = NULL →
  process_command in_msg out_msg = Some (-1, out_msg).
Proof.
  intros [-> | ->]; [done|]. by destruct in_msg.
Qed.

(** C1: a line of [MSG_BUFFER_LENGTH] characters or more makes the
    tokenizer return -2 and leave the command untouched, but the
    dispatcher drops that result: it finds the token still unknown and
    returns 1, not -2.  The output buffer is untouched. *)
Theorem overlong_line_status (in_msg s out : list ascii) (cmd : Command) :
  c_str in_msg = Some s →
  (MSG_BUFFER_LENGTH ≤ length s)%nat →
  parse_input (Ptr in_msg) (Ptr cmd) = Some (-2, Ptr cmd)
  ∧ process_command (Ptr in_msg) (Ptr out) = Some (1, Ptr out).
Proof.
  intros Hin Hlen. split.
  - by apply parse_input_overlong with s.
  - by apply process_command_overlong with s.
Qed.

(** C7: whenever [process_command] returns a status other than 0, the
    caller's output buffer is as it was, and the status is -1 (a null
    buffer) or 1 (no handler for the line); in particular a line that
    fits and whose command word is not a known one, such as "foobar",
    returns 1 and writes nothing. *)
Theorem nonzero_status_leaves_output (in_msg out_msg out' : ptr (list ascii)) (st : Z) :
  process_command in_msg out_msg = Some (st, out') →
  st ≠ 0 →
  out' = out_msg ∧ (st = -1 ∨ st = 1)
  ∧ ∀ out : list ascii,
      process_command (Ptr (lit "foobar")) (Ptr out) = Some (1, Ptr out).
Proof.
  intros Hrun Hst. split; [|split].
  - destruct in_msg as [|in_buf]; [by injection Hrun as _ <-|].
    destruct out_msg as [|out]; [by injection Hrun as _ <-|].
    by destruct (process_command_inv _ _ _ _ Hrun) as [[_ ->]|[-> _]].
  - destruct in_msg as [|in_buf]; [left; by injection Hrun as <- _|].
    destruct out_msg as [|out]; [left; by injection Hrun as <- _|].
    by destruct (process_command_inv _ _ _ _ Hrun) as [[-> _]|[-> _]]; [right|].
  - intros out.
    destruct (decide (length (chars "foobar") < MSG_BUFFER_LENGTH)%nat) as [Hlen|Hlen].
    + rewrite (process_command_fits _ (chars "foobar")) by (done || by apply c_str_lit; no_nul).
      change (key (tokenized (chars "foobar"))) with COMMAND_UNKNOWN. done.
    + apply process_command_overlong with (chars "foobar"); [by apply c_str_lit; no_nul|lia].
Qed.

(** ** The tokenizer's policy *)

Lemma split_line_at_blank (pre rest : list ascii) (b : ascii) :
  Forall (λ c, is_blank c = false) pre → is_blank b = true →
  split_line (pre ++ b :: rest) = (pre, rest).
Proof.
  intros Hpre Hb. induction Hpre as [|c pre Hc _ IH]; simpl.
  - by rewrite Hb.
  - by rewrite Hc, IH.
Qed.

Lemma split_line_no_blank (s : list ascii) :
  Forall (λ c, is_blank c = false) s → split_line s = (s, []).
Proof.
  intros Hs. induction Hs as [|c s Hc _ IH]; simpl; [done|]. by rewrite Hc, IH.
Qed.

(** C6: on a line that fits, the first blank (space or tab) ends the
    command word and is dropped; everything after it, further blanks
    included, is the argument, byte for byte: the argument array holds
    exactly the rest of the line, then zeros, and the command array the
    lower-cased word. *)
Theorem tokenizer_keeps_later_blanks
    (in_msg pre rest : list ascii) (b : ascii) (cmd : Command) :
  c_str in_msg = Some (pre ++ b :: rest) →
  Forall (λ c, is_blank c = false) pre →
  is_blank b = true →
  (length (pre ++ b :: rest) < MSG_BUFFER_LENGTH)%nat →
  sized cmd →
  ∃ cmd',
    parse_input (Ptr in_msg) (Ptr cmd) = Some (0, Ptr cmd')
    ∧ command cmd' = padded MSG_BUFFER_LENGTH (tolower <$> pre)
    ∧ argument cmd' = padded MSG_BUFFER_LENGTH rest
    ∧ c_str (argument cmd') = Some rest.
Proof.
  intros Hin Hpre Hb Hlen Hcmd.
  exists (tokenized (pre ++ b :: rest)).
  split; [by apply parse_input_spec|].
  unfold tokenized. rewrite split_line_at_blank by done. simpl.
  split; [done|]. split; [done|].
  destruct (c_str_inv _ _ Hin) as [Hnul _].
  rewrite length_app in Hlen. simpl in Hlen.
  apply c_str_padded; [|lia].
  intros Hr. apply Hnul. apply elem_of_app. right. by right.
Qed.

Lemma known_command_chars (w : string) (k : CommandToken) :
  (w, k) ∈ known_commands →
  Forall (λ c, is_blank c = false ∧ tolower c = c ∧ c ≠ NUL) (chars w)
  ∧ token_of (chars w) = k.
Proof.
  unfold known_commands. rewrite !elem_of_cons, elem_of_nil.
  intros [[= -> ->]|[[= -> ->]|[[= -> ->]|[[= -> ->]|[]]]]];
    (split; [no_nul|reflexivity]).
Qed.

(** ** The [dec] command *)

(** What the caller reads back after a [dec] line. *)
Lemma dec_line (line : string) (out : list ascii) :
  NUL ∉ chars line →
  (length (chars line) < MSG_BUFFER_LENGTH)%nat →
  key (tokenized (chars line)) = COMMAND_DEC →
  (length (dec_response (split_line (chars line)).2) < MSG_BUFFER_LENGTH ≤ length out)%nat →
  response (process_command (Ptr (lit line)) (Ptr out))
  = Some (0, dec_response (split_line (chars line)).2).
Proof.
  intros Hn Hlen Hkey Hout.
  rewrite (process_command_dec (lit line) (chars line)) by (done || by apply c_str_lit).
  unfold response. monad.
  rewrite c_str_copied by (apply dec_response_no_NUL || lia). done.
Qed.

(** C3: the base is read off the head of the argument, and the seven
    sample lines of the design document get the documented answers, each
    with status 0, in buffers that can hold the error message. *)
Theorem dec_examples (out : list ascii) :
  (15 ≤ MSG_BUFFER_LENGTH ≤ length out)%nat →
  (∀ r, dec_parse ("0" :: "x" :: r)%char = strtoul_from ("0" :: "x" :: r)%char 2 16)
  ∧ (∀ r, dec_parse ("0" :: "b" :: r)%char = strtoul_from ("0" :: "b" :: r)%char 2 2)
  ∧ (∀ c r, c ≠ "x"%char → c ≠ "b"%char →
       dec_parse ("0"%char :: c :: r) = strtoul_from ("0"%char :: c :: r) 1 8)
  ∧ (∀ num, head num ≠ Some "0"%char ∨ (length num ≤ 1)%nat →
       dec_parse num = strtoul_from num 0 10)
  ∧ response (process_command (Ptr (lit "dec 0x10")) (Ptr out)) = Some (0, chars "16")
  ∧ response (process_command (Ptr (lit "dec 0b101")) (Ptr out)) = Some (0, chars "5")
  ∧ response (process_command (Ptr (lit "dec 010")) (Ptr out)) = Some (0, chars "8")
  ∧ response (process_command (Ptr (lit "dec 65535")) (Ptr out)) = Some (0, chars "65535")
  ∧ response (process_command (Ptr (lit "dec 65536")) (Ptr out))
    = Some (0, chars "ARGUMENT ERROR")
  ∧ response (process_command (Ptr (lit "dec abc")) (Ptr out))
    = Some (0, chars "ARGUMENT ERROR")
  ∧ response (process_command (Ptr (lit "dec")) (Ptr out))
    = Some (0, chars "ARGUMENT ERROR").
Proof.
  intros HN.
  assert (∀ line, NUL ∉ chars line →
            (length (chars line) < 15)%nat →
            key (tokenized (chars line)) = COMMAND_DEC →
            response (process_command (Ptr (lit line)) (Ptr out))
            = Some (0, dec_response (split_line (chars line)).2)) as Hline.
  { intros line Hn Hlen Hkey.
    pose proof (length_dec_response (split_line (chars line)).2).
    apply dec_line; (done || lia). }
  split; [|split; [|split; [|split]]].
  - intros r. unfold dec_parse, dec_base. simpl. done.
  - intros r. unfold dec_parse, dec_base. simpl. done.
  - intros c r Hx Hb. unfold dec_parse, dec_base. simpl. unfold str_at. simpl.
    by rewrite !bool_decide_eq_false_2.
  - intros num Hnum. unfold dec_parse, dec_base.
    destruct num as [|c [|c' r]]; [done|by rewrite andb_false_r|].
    destruct Hnum as [Hc|Hl]; [|simpl in Hl; lia].
    unfold str_at. simpl. rewrite bool_decide_eq_false_2; [done|]. by intros ->.
  - repeat split; (rewrite Hline; [reflexivity|no_nul|simpl; lia|reflexivity]).
Qed.

(** C10: on its base 10 path the handler is as lenient as [strtoul]:
    an argument made of blanks, then an optional plus sign, then a
    decimal numeral of value at most 0xFFFF is answered with that value
    in decimal.  Blanks or a sign in front are enough to be on that
    path.  The line "dec  42", whose second space the tokenizer keeps in
    the argument, is answered "42". *)
Theorem dec_lenient_prefix (cmd : Command) (ws sg ds buf : list ascii) :
  c_str (argument cmd) = Some (ws ++ sg ++ ds) →
  lenient ws sg ds →
  decimal_value ds ≤ 0xFFFF →
  ws ++ sg ≠ [] ∨ dec_base ds = 10 →
  (6 ≤ MSG_BUFFER_LENGTH ≤ length buf)%nat →
  process_cmd_dec cmd buf
  = Some (0, utoa (decimal_value ds)
             ++ NUL :: drop (S (length (utoa (decimal_value ds)))) buf)
  ∧ dec_response (ws ++ sg ++ ds) = utoa (decimal_value ds)
  ∧ ∀ out, (8 ≤ MSG_BUFFER_LENGTH ≤ length out)%nat →
      response (process_command (Ptr (lit "dec  42")) (Ptr out)) = Some (0, chars "42").
Proof.
  intros Harg Hl Hv Hpath HN.
  assert (dec_base (ws ++ sg ++ ds) = 10) as Hbase.
  { destruct Hpath as [Hne|Hb]; [by apply dec_base_lenient|].
    destruct (decide (ws ++ sg = [])) as [He|Hne]; [|by apply dec_base_lenient].
    apply app_eq_nil in He as [-> ->]. done. }
  pose proof (dec_response_lenient ws sg ds Hl Hv Hbase) as Hresp.
  assert (0 ≤ decimal_value ds) as Hv0.
  { destruct Hl as (_ & _ & _ & Hds). by apply decimal_fold_nonneg. }
  destruct (utoa_spec 4 (decimal_value ds)) as (_ & _ & Hlen & _); [simpl; lia|].
  split; [|split; [done|]].
  - rewrite (process_cmd_dec_spec cmd (ws ++ sg ++ ds)) by (done || (rewrite Hresp; lia)).
    by rewrite Hresp.
  - intros out Hout. rewrite dec_line; [reflexivity|no_nul|simpl; lia|reflexivity|].
    change (dec_response (split_line (chars "dec  42")).2) with (chars "42").
    simpl. lia.
Qed.

(** ** Where the handler departs from its documented validation *)

Lemma str_at_NUL (num : list ascii) (e : nat) :
  NUL ∉ num →
  negb (bool_decide (str_at num e = NUL)) = bool_decide (e < length num)%nat.
Proof.
  intros Hn. unfold str_at.
  destruct (num !! e) as [c|] eqn:Hc; simpl.
  - pose proof (lookup_lt_Some _ _ _ Hc).
    rewrite bool_decide_eq_false_2, bool_decide_eq_true_2; [done..|].
    intros ->. apply Hn. by eapply list_elem_of_lookup_2.
  - apply lookup_ge_None in Hc.
    by rewrite bool_decide_eq_false_2 by lia.
Qed.

Lemma strtoul_from_end (num : list ascii) (skip : nat) (base : Z) :
  (skip ≤ (strtoul_from num skip base).2)%nat.
Proof. unfold strtoul_from. destruct (strtoul _ _). simpl. lia. Qed.

Lemma dec_parse_end (num : list ascii) : (dec_skip num ≤ (dec_parse num).2)%nat.
Proof.
  unfold dec_parse, dec_skip.
  destruct (dec_base num =? 10); [|destruct (dec_base num =? 8)]; apply strtoul_from_end.
Qed.

Lemma dec_skip_cases (num : list ascii) :
  dec_skip num = 0%nat
  ∨ (dec_skip num = 1%nat ∧ (2 ≤ length num)%nat)
  ∨ (dec_skip num = 2%nat
     ∧ ∃ r, num = ("0" :: "b" :: r)%char ∨ num = ("0" :: "x" :: r)%char).
Proof.
  unfold dec_skip, dec_base.
  destruct num as [|c0 [|c1 r]]; [by left|rewrite andb_false_r; by left|].
  change (str_at (c0 :: c1 :: r) 0) with c0.
  change (str_at (c0 :: c1 :: r) 1) with c1.
  case_bool_decide as H0; [|by left]. subst c0.
  rewrite bool_decide_eq_true_2 by (simpl; lia). cbn [andb].
  case_bool_decide as Hb1; [|case_bool_decide as Hx1].
  - subst c1. right; right. split; [done|]. exists r. by left.
  - subst c1. right; right. split; [done|]. exists r. by right.
  - right; left. split; [done|]. simpl. lia.
Qed.

(** Except on the bare prefixes "0x" and "0b", the handler rejects an
    argument exactly for the documented reasons. *)
Lemma dec_rejects_documented (num : list ascii) :
  NUL ∉ num → num ≠ chars "0x" → num ≠ chars "0b" →
  dec_rejects num = documented_rejects num.
Proof.
  intros Hn Hx Hb. unfold dec_rejects, documented_rejects.
  rewrite str_at_NUL by done. f_equal.
  pose proof (dec_parse_end num) as He.
  destruct (dec_skip_cases num) as [Hs|[[Hs Hl]|[Hs [r Hr]]]]; rewrite Hs in *.
  - rewrite drop_0. destruct num as [|c r]; [reflexivity|].
    rewrite (bool_decide_eq_false_2 (c :: r = [])) by done.
    by destruct (dec_parse (c :: r)).2 as [|e].
  - rewrite (bool_decide_eq_false_2 (_ = O)) by lia.
    rewrite (bool_decide_eq_false_2 (drop 1 num = [])); [done|].
    destruct num as [|? [|? ?]]; simpl in *; (lia || done).
  - rewrite (bool_decide_eq_false_2 (_ = O)) by lia.
    rewrite (bool_decide_eq_false_2 (drop 2 num = [])); [done|].
    destruct Hr as [-> | ->]; destruct r; done.
Qed.

(** C2: the handler tests [end] against the start of the whole
    argument, not against the start of the digits, so a bare base
    prefix slips through.  The arguments "0x" and "0b" leave nothing
    after the prefix, which the design document rejects, yet the handler
    answers "0" with status 0.  On every other argument the handler
    rejects exactly for the documented reasons. *)
Theorem dec_bare_prefix_accepted (out : list ascii) :
  (15 ≤ MSG_BUFFER_LENGTH ≤ length out)%nat →
  documented_rejects (chars "0x") = true
  ∧ documented_rejects (chars "0b") = true
  ∧ response (process_command (Ptr (lit "dec 0x")) (Ptr out)) = Some (0, chars "0")
  ∧ response (process_command (Ptr (lit "dec 0b")) (Ptr out)) = Some (0, chars "0")
  ∧ ∀ num, NUL ∉ num → num ≠ chars "0x" → num ≠ chars "0b" →
      dec_rejects num = documented_rejects num.
Proof.
  intros HN. split; [reflexivity|]. split; [reflexivity|].
  split; [|split; [|apply dec_rejects_documented]].
  - rewrite dec_line; [reflexivity|no_nul|simpl; lia|reflexivity|].
    pose proof (length_dec_response (split_line (chars "dec 0x")).2). lia.
  - rewrite dec_line; [reflexivity|no_nul|simpl; lia|reflexivity|].
    pose proof (length_dec_response (split_line (chars "dec 0b")).2). lia.
Qed.

(** ** The MAC address *)

Lemma hex_digit_spec (d : Z) :
  0 ≤ d < 16 →
  digit_val (hex_digit d) = Some d ∧ islower (hex_digit d) = false
  ∧ hex_digit d ≠ ":"%char ∧ hex_digit d ≠ NUL.
Proof.
  intros Hd.
  assert (d = 0 ∨ d = 1 ∨ d = 2 ∨ d = 3 ∨ d = 4 ∨ d = 5 ∨ d = 6 ∨ d = 7 ∨ d = 8
          ∨ d = 9 ∨ d = 10 ∨ d = 11 ∨ d = 12 ∨ d = 13 ∨ d = 14 ∨ d = 15) as Hcases by lia.
  repeat (destruct Hcases as [->|Hcases]; [by repeat split|]). subst. by repeat split.
Qed.

Lemma nibbles (b : Z) : is_uint8 b → 0 ≤ b / 16 < 16 ∧ 0 ≤ b mod 16 < 16.
Proof.
  unfold is_uint8. intros Hb. split.
  - split; [apply Z.div_pos; lia|apply Z.div_lt_upper_bound; lia].
  - apply Z.mod_pos_bound. lia.
Qed.

Lemma format_mac_chars (mac : list Z) :
  Forall is_uint8 mac →
  Forall (λ c, c ≠ NUL) (format_mac mac)
  ∧ length (filter (λ c, c = ":"%char) (format_mac mac)) = (length mac - 1)%nat.
Proof.
  unfold format_mac. induction 1 as [|b mac Hb Hmac [IH1 IH2]]; [by split|].
  destruct (nibbles b Hb) as [Hhi Hlo].
  destruct (hex_digit_spec _ Hhi) as (_ & _ & Hh1 & Hh2).
  destruct (hex_digit_spec _ Hlo) as (_ & _ & Hl1 & Hl2).
  rewrite fmap_cons. destruct mac as [|b' mac].
  - split; [by repeat constructor|].
    cbn [fmap list_fmap join]. unfold hex_byte.
    rewrite !filter_cons_False by done. done.
  - rewrite fmap_cons in *. cbn [join] in *. split.
    + unfold hex_byte at 1. simpl. by repeat constructor.
    + unfold hex_byte at 1. cbn [app].
      rewrite !filter_cons_False by done. rewrite filter_cons_True by done.
      cbn [length] in *. rewrite IH2. lia.
Qed.

Lemma length_format_mac (mac : list Z) : length mac = 6%nat → length (format_mac mac) = 17%nat.
Proof.
  intros Hm. do 6 (destruct mac as [|? mac]; [done|]). by destruct mac.
Qed.

Lemma format_mac_last (mac : list Z) :
  length mac = 6%nat → Forall is_uint8 mac → last (format_mac mac) ≠ Some ":"%char.
Proof.
  intros Hm Hb. do 6 (destruct mac as [|? mac]; [done|]). destruct mac; [|done].
  apply Forall_lookup_1 with (i := 5%nat) (x := z4) in Hb; [|done].
  destruct (nibbles _ Hb) as [_ Hlo].
  destruct (hex_digit_spec _ Hlo) as (_ & _ & Hc & _). simpl. by intros [= ?].
Qed.

(** C4: for every six bytes the formatter succeeds and writes 17
    characters: each byte as two digits, the high nibble first, each
    digit an uppercase hexadecimal digit of the nibble's value, the
    groups joined by five colons with none at the end. *)
Theorem mac_to_string_format (mac : list Z) (out : list ascii) :
  length mac = 6%nat →
  Forall is_uint8 mac →
  (17 ≤ length out)%nat →
  mac_to_string (Ptr mac) (Ptr out) = Some (Ptr (format_mac mac ++ drop 17 out))
  ∧ length (format_mac mac) = 17%nat
  ∧ length (filter (λ c, c = ":"%char) (format_mac mac)) = 5%nat
  ∧ last (format_mac mac) ≠ Some ":"%char
  ∧ Forall (λ b, ∃ hi lo, hex_byte b = [hi; lo]
               ∧ digit_val hi = Some (b / 16) ∧ digit_val lo = Some (b mod 16)
               ∧ islower hi = false ∧ islower lo = false) mac
  ∧ format_mac [0x01; 0x02; 0xAB; 0xCD; 0xEF; 0x00] = chars "01:02:AB:CD:EF:00".
Proof.
  intros Hlen Hb Hout.
  split; [by apply mac_to_string_spec|].
  split; [by apply length_format_mac|].
  split; [destruct (format_mac_chars _ Hb) as [_ ->]; by rewrite Hlen|].
  split; [by apply format_mac_last|].
  split; [|reflexivity].
  eapply Forall_impl; [exact Hb|]. simpl. intros b Hb'.
  destruct (nibbles b Hb') as [Hhi Hlo].
  destruct (hex_digit_spec _ Hhi) as (? & ? & _).
  destruct (hex_digit_spec _ Hlo) as (? & ? & _).
  by eexists _, _.
Qed.

Lemma c_str_None (l : list ascii) : NUL ∉ l → c_str l = None.
Proof.
  induction l as [|c l IH]; intros Hl; cbn [c_str]; [done|].
  rewrite decide_False by (intros ->; apply Hl; left).
  rewrite IH; [done|]. intros ?. apply Hl. by right.
Qed.

Lemma mac_text_no_NUL :
  Forall is_uint8 esp_read_mac → NUL ∉ chars "MAC " ++ format_mac esp_read_mac.
Proof.
  intros Hb Hin. apply elem_of_app in Hin as [Hin|Hin].
  - revert Hin. no_nul.
  - destruct (format_mac_chars _ Hb) as [Hf _].
    rewrite Forall_forall in Hf. by apply (Hf _ Hin).
Qed.

(** A [mac] line that fits, in buffers that can hold the answer. *)
Lemma process_command_mac (in_msg s out : list ascii) :
  length esp_read_mac = 6%nat → Forall is_uint8 esp_read_mac →
  c_str in_msg = Some s →
  (length s < MSG_BUFFER_LENGTH)%nat →
  key (tokenized s) = COMMAND_MAC →
  (22 ≤ MSG_BUFFER_LENGTH ≤ length out)%nat →
  process_command (Ptr in_msg) (Ptr out)
  = Some (0, Ptr (padded MSG_BUFFER_LENGTH (chars "MAC " ++ format_mac esp_read_mac)
                  ++ drop MSG_BUFFER_LENGTH out)).
Proof.
  intros Hm Hb Hin Hlen Hkey HN.
  rewrite (process_command_fits in_msg s) by done. rewrite Hkey.
  rewrite process_cmd_mac_spec by (done || (rewrite length_replicate; lia)).
  monad. rewrite bool_decide_eq_false_2 by (intros H; by apply H).
  rewrite drop_replicate.
  destruct (MSG_BUFFER_LENGTH - 21)%nat as [|k] eqn:Hk; [lia|].
  rewrite app_assoc. cbn [replicate].
  rewrite copy_out_text; [done|by apply mac_text_no_NUL| |lia].
  rewrite !length_app, length_format_mac by done. simpl.
  rewrite length_replicate. lia.
Qed.

(** C9: the formatter writes the 17 bytes at offsets 0 to 16 of its
    output and no other: the array keeps its length and every byte from
    offset 17 on, so no terminator is appended.  The handler's buffer
    accordingly keeps, after "MAC " and the address, whatever byte it
    held at offset 21: in a buffer without a zero byte from there on the
    handler leaves no terminated string at all.  It is on the
    dispatcher's zeroed buffer that the caller reads back exactly "MAC "
    and the address. *)
Theorem mac_to_string_frame :
  length esp_read_mac = 6%nat →
  Forall is_uint8 esp_read_mac →
  (∀ out, (17 ≤ length out)%nat →
     ∃ out', mac_to_string (Ptr esp_read_mac) (Ptr out) = Some (Ptr out')
             ∧ length out' = length out
             ∧ ∀ i, (17 ≤ i)%nat → out' !! i = out !! i)
  ∧ (∀ cmd buf, (22 ≤ length buf)%nat →
       ∃ buf', process_cmd_mac cmd buf = Some (0, buf')
               ∧ take 21 buf' = chars "MAC " ++ format_mac esp_read_mac
               ∧ buf' !! 21%nat = buf !! 21%nat)
  ∧ (∀ cmd buf, (22 ≤ length buf)%nat → NUL ∉ drop 21 buf →
       ∃ buf', process_cmd_mac cmd buf = Some (0, buf') ∧ c_str buf' = None)
  ∧ (∀ out, (22 ≤ MSG_BUFFER_LENGTH ≤ length out)%nat →
       response (process_command (Ptr (lit "mac")) (Ptr out))
       = Some (0, chars "MAC " ++ format_mac esp_read_mac)).
Proof.
  intros Hm Hb. pose proof (length_format_mac _ Hm) as Hf.
  split; [|split; [|split]].
  - intros out Hout. eexists. split; [by apply mac_to_string_spec|]. split.
    + rewrite length_app, length_drop, Hf. lia.
    + intros i Hi. rewrite lookup_app_r by lia. rewrite Hf, lookup_drop.
      f_equal. lia.
  - intros cmd buf Hbuf. eexists. split; [apply process_cmd_mac_spec; (done || lia)|]. split.
    + rewrite app_assoc. rewrite take_app_length'; [done|].
      rewrite length_app, Hf. done.
    + rewrite app_assoc. rewrite lookup_app_r by (rewrite length_app, Hf; simpl; lia).
      rewrite length_app, Hf, lookup_drop. done.
  - intros cmd buf Hbuf Hrest. eexists.
    split; [apply process_cmd_mac_spec; (done || lia)|].
    apply c_str_None. rewrite app_assoc. intros Hin.
    apply elem_of_app in Hin as [Hin|Hin]; [by apply mac_text_no_NUL|done].
  - intros out HN.
    rewrite (process_command_mac (lit "mac") (chars "mac"));
      [|done|done|by apply c_str_lit; no_nul|simpl; lia|reflexivity|done].
    unfold response. monad. rewrite c_str_copied; [done|by apply mac_text_no_NUL|].
    rewrite length_app, Hf. simpl. lia.
Qed.

(** ** The dispatcher stays inside its buffers *)

Lemma c_strn_defined (buf : list ascii) (n : nat) :
  (n ≤ length buf)%nat → ∃ t, c_strn buf n = Some t ∧ (length t ≤ n)%nat.
Proof.
  revert buf; induction n as [|n IH]; intros buf Hn; [exists []; split; [done|simpl; lia]|].
  destruct buf as [|c buf]; [simpl in Hn; lia|]. cbn [c_strn].
  case_decide; [exists []; split; [done|simpl; lia]|].
  destruct (IH buf) as (t & -> & Ht); [simpl in Hn; lia|].
  exists (c :: t). split; [done|simpl; lia].
Qed.

Lemma copy_out_defined (buf out : list ascii) :
  length buf = MSG_BUFFER_LENGTH →
  (1 ≤ MSG_BUFFER_LENGTH ≤ length out)%nat →
  ∃ out',
    (buf' ← store buf (MSG_BUFFER_LENGTH - 1) NUL;
     out' ← strncpy out buf' MSG_BUFFER_LENGTH;
     Some (0, Ptr out')) = Some (0, Ptr out').
Proof.
  intros Hb HN. rewrite store_lt by lia. monad. unfold strncpy.
  destruct (c_strn_defined (<[(MSG_BUFFER_LENGTH - 1)%nat:=NUL]> buf) MSG_BUFFER_LENGTH)
    as (t & -> & Ht); [rewrite length_insert; lia|].
  monad. rewrite write_bytes_le by (rewrite length_app, length_replicate; lia).
  monad. by eexists.
Qed.

(** Given a terminated line, an output array of the declared size, six
    bytes of address and buffers of 22 bytes or more, [process_command]
    is defined: no access leaves an array. *)
Theorem process_command_defined (in_msg s out : list ascii) :
  c_str in_msg = Some s →
  length esp_read_mac = 6%nat → Forall is_uint8 esp_read_mac →
  (22 ≤ MSG_BUFFER_LENGTH ≤ length out)%nat →
  ∃ st out', process_command (Ptr in_msg) (Ptr out) = Some (st, Ptr out').
Proof.
  intros Hin Hm Hb HN.
  destruct (decide (length s < MSG_BUFFER_LENGTH)%nat) as [Hfit|Hfit];
    [|exists 1, out; apply process_command_overlong with s; (done || lia)].
  destruct (c_str_inv _ _ Hin) as [Hnul _].
  destruct (key (tokenized s)) eqn:Hkey.
  - exists 1, out. rewrite (process_command_fits in_msg s) by done. by rewrite Hkey.
  - eexists _, _. by apply process_command_mac with s.
  - rewrite (process_command_fits in_msg s) by done. rewrite Hkey.
    unfold process_cmd_id.
    rewrite strcpy_lit by (no_nul || (rewrite length_replicate; simpl; lia)).
    monad. rewrite bool_decide_eq_false_2 by (intros H; by apply H).
    edestruct copy_out_defined as [o ->]; [|lia|by eexists _, _].
    rewrite length_app. cbn [length]. rewrite length_drop, length_replicate. simpl. lia.
  - rewrite (process_command_fits in_msg s) by done. rewrite Hkey.
    unfold process_cmd_status.
    rewrite snprintf_spec by (rewrite length_replicate; lia).
    monad. rewrite bool_decide_eq_false_2 by (intros H; by apply H).
    edestruct copy_out_defined as [o ->]; [|lia|by eexists _, _].
    rewrite length_app. cbn [length]. rewrite length_drop, length_replicate, length_take. lia.
  - eexists _, _. apply (process_command_dec in_msg s out); try done.
    pose proof (length_dec_response (split_line s).2). lia.
Qed.

(** * Further properties of the code *)

(** ** The tokenizer on any line *)

Lemma tokenized_line (w a s : list ascii) :
  line_of w a s →
  tokenized s = mkCommand (token_of (tolower <$> w))
                  (padded MSG_BUFFER_LENGTH (tolower <$> w))
                  (padded MSG_BUFFER_LENGTH a).
Proof.
  intros [Hw [[-> ->]|(b & Hb & ->)]]; unfold tokenized.
  - by rewrite split_line_no_blank.
  - by rewrite split_line_at_blank.
Qed.

Lemma line_of_split (s : list ascii) : line_of (split_line s).1 (split_line s).2 s.
Proof. destruct (split_line_spec s) as [Hw Hs]. by split. Qed.

Lemma tolower_not_upper (c : ascii) : isupper (tolower c) = false.
Proof. destruct c as [[] [] [] [] [] [] [] []]; reflexivity. Qed.

(** The tokenizer, in full: a terminated line that fits is cut at its
    first blank; the command array receives the lower-cased field before
    it, the argument array what follows it, each followed by zeros up to
    the capacity, whatever the command held before; the key is the token
    of the lower-cased field. *)
Theorem tokenizer_result (in_msg s : list ascii) (cmd : Command) :
  c_str in_msg = Some s →
  (length s < MSG_BUFFER_LENGTH)%nat →
  sized cmd →
  ∃ w a,
    line_of w a s
    ∧ parse_input (Ptr in_msg) (Ptr cmd)
      = Some (0, Ptr (mkCommand (token_of (tolower <$> w))
                        (padded MSG_BUFFER_LENGTH (tolower <$> w))
                        (padded MSG_BUFFER_LENGTH a))).
Proof.
  intros Hin Hlen Hcmd. exists (split_line s).1, (split_line s).2.
  split; [apply line_of_split|].
  rewrite (parse_input_spec in_msg s) by done.
  by rewrite (tokenized_line _ _ s (line_of_split s)).
Qed.

(** What the tokenizer leaves in a command: two terminated strings
    inside arrays of the declared size, together no longer than the line;
    the command word holds no upper-case letter and no blank. *)
Theorem tokenizer_invariant (in_msg s : list ascii) (cmd : Command) :
  c_str in_msg = Some s →
  (length s < MSG_BUFFER_LENGTH)%nat →
  sized cmd →
  ∃ cmd' name arg,
    parse_input (Ptr in_msg) (Ptr cmd) = Some (0, Ptr cmd')
    ∧ sized cmd'
    ∧ c_str (command cmd') = Some name
    ∧ c_str (argument cmd') = Some arg
    ∧ (length name + length arg ≤ length s)%nat
    ∧ Forall (λ c, isupper c = false ∧ is_blank c = false) name.
Proof.
  intros Hin Hlen Hcmd.
  destruct (c_str_inv _ _ Hin) as [Hnul _].
  destruct (split_line_name s Hnul) as [Hn1 Hn2].
  destruct (split_line_argument s Hnul) as [Ha1 Ha2].
  destruct (split_line_spec s) as [Hw Hs].
  exists (tokenized s), (tolower <$> (split_line s).1), (split_line s).2.
  split; [by apply parse_input_spec|].
  split; [split; simpl; apply length_padded; lia|].
  split; [simpl; apply c_str_padded; (done || lia)|].
  split; [simpl; apply c_str_padded; (done || lia)|].
  split.
  - rewrite length_fmap.
    destruct Hs as [[Hs Ha]|(b & _ & Hs)]; apply (f_equal length) in Hs.
    + rewrite Ha. simpl. lia.
    + rewrite length_app in Hs. simpl in Hs. lia.
  - rewrite Forall_fmap. eapply Forall_impl; [exact Hw|]. simpl.
    intros c Hc. split; [apply tolower_not_upper|].
    destruct c as [[] [] [] [] [] [] [] []]; (reflexivity || discriminate Hc).
Qed.

(** ** Lines no handler takes *)

(** A line that fits and whose command field, lower-cased, is none of
    the four command words has status 1 and leaves the output alone. *)
Theorem unknown_word_status (in_msg s w a out : list ascii) :
  c_str in_msg = Some s →
  (length s < MSG_BUFFER_LENGTH)%nat →
  line_of w a s →
  tolower <$> w ∉ [chars "mac"; chars "id"; chars "status"; chars "dec"] →
  process_command (Ptr in_msg) (Ptr out) = Some (1, Ptr out).
Proof.
  intros Hin Hlen Hline Hw.
  rewrite (process_command_fits in_msg s) by done.
  rewrite (tokenized_line w a s Hline). cbn [key]. unfold token_of.
  rewrite !not_elem_of_cons in Hw. destruct Hw as (H1 & H2 & H3 & H4 & _).
  by rewrite !decide_False by done.
Qed.

(** An empty line, and a line that begins with a blank, is never
    recognised: the command field is empty.  So " mac" has status 1. *)
Theorem leading_blank_status (in_msg s out : list ascii) :
  c_str in_msg = Some s →
  head s = None ∨ (∃ b, head s = Some b ∧ is_blank b = true) →
  process_command (Ptr in_msg) (Ptr out) = Some (1, Ptr out).
Proof.
  intros Hin Hs.
  destruct (decide (length s < MSG_BUFFER_LENGTH)%nat) as [Hfit|Hfit];
    [|apply process_command_overlong with s; (done || lia)].
  assert (line_of [] (tail s) s) as Hline.
  { split; [constructor|]. destruct s as [|c r]; [by left|].
    destruct Hs as [Hs|(b & [= <-] & Hb)]; [done|]. right. by exists c. }
  rewrite (process_command_fits in_msg s) by done.
  by rewrite (tokenized_line [] (tail s) s Hline).
Qed.

(** ** What the caller gets on success *)

Lemma c_strn_spec (buf t : list ascii) (n : nat) :
  c_strn buf n = Some t →
  (NUL ∉ t) ∧ (length t ≤ n)%nat
  ∧ ∀ i, (i < n)%nat → buf !! i = Some NUL → (length t ≤ i)%nat.
Proof.
  revert buf t; induction n as [|n IH]; intros buf t H.
  - injection H as <-. split; [apply not_elem_of_nil|]. split; [done|]. intros; lia.
  - destruct buf as [|c buf]; [done|]. cbn [c_strn] in H.
    case_decide as Hc.
    + injection H as <-. split; [apply not_elem_of_nil|]. split; simpl; intros; lia.
    + destruct (c_strn buf n) as [t'|] eqn:Ht; [|done]. monad in H. injection H as <-.
      destruct (IH buf t' Ht) as (Hn & Hl & Hi). split; [|split].
      * rewrite not_elem_of_cons. split; [by intros ?|done].
      * simpl. lia.
      * intros [|i] Hlt Hb; [by injection Hb|].
        simpl. apply le_n_S. apply Hi; [lia|done].
Qed.

(** The anatomy of a successful call: the text copied out depends on
    the line alone. *)
Lemma process_command_success (in_msg out o : list ascii) :
  process_command (Ptr in_msg) (Ptr out) = Some (0, Ptr o) →
  ∃ t,
    o = (t ++ replicate (MSG_BUFFER_LENGTH - length t) NUL) ++ drop MSG_BUFFER_LENGTH out
    ∧ (MSG_BUFFER_LENGTH ≤ length out)%nat
    ∧ (NUL ∉ t) ∧ (length t ≤ MSG_BUFFER_LENGTH)%nat
    ∧ ((0 < MSG_BUFFER_LENGTH)%nat → (length t < MSG_BUFFER_LENGTH)%nat)
    ∧ ∀ out2, (MSG_BUFFER_LENGTH ≤ length out2)%nat →
        process_command (Ptr in_msg) (Ptr out2)
        = Some (0, Ptr ((t ++ replicate (MSG_BUFFER_LENGTH - length t) NUL)
                        ++ drop MSG_BUFFER_LENGTH out2)).
Proof.
  unfold process_command.
  destruct (memset _ _ _) as [sb|]; [|done]. monad.
  destruct (init_Command _) as [pc|]; [|done]. monad.
  destruct (parse_input _ pc) as [[z pc']|]; [|done]. monad.
  destruct pc' as [|cmd]; [done|]. monad.
  destruct (match key cmd with COMMAND_UNKNOWN => _ | _ => _ end) as [[r b]|]; [|done].
  monad. case_bool_decide as Hr; [intros [= -> _]; done|].
  destruct (store b _ _) as [b'|] eqn:Hstore; [|done]. monad.
  unfold strncpy. destruct (c_strn b' _) as [t|] eqn:Ht; [|done]. monad.
  intros H. unfold write_bytes in H.
  destruct (decide (length (t ++ replicate (MSG_BUFFER_LENGTH - length t) NUL)
                    ≤ length out)%nat) as [Hle|]; [|done].
  monad in H. injection H as <-.
  destruct (c_strn_spec _ _ _ Ht) as (Hn & Hl & Hi).
  assert (length (t ++ replicate (MSG_BUFFER_LENGTH - length t) NUL) = MSG_BUFFER_LENGTH)
    as Hlen by (rewrite length_app, length_replicate; lia).
  rewrite Hlen in *.
  exists t. split; [done|]. split; [done|]. split; [done|]. split; [done|]. split.
  - intros HN. unfold store in Hstore. case_decide as Hb; [|done]. injection Hstore as <-.
    specialize (Hi (MSG_BUFFER_LENGTH - 1)%nat ltac:(lia)). 
    rewrite list_lookup_insert_eq in Hi by done. specialize (Hi eq_refl). lia.
  - intros out2 H2. rewrite write_bytes_le by lia. monad. by rewrite Hlen.
Qed.

(** On status 0 the first [MSG_BUFFER_LENGTH] bytes of the output are a
    string shorter than the capacity followed by zeros, so the caller
    always finds a terminator inside the buffer, and the bytes beyond
    the capacity are as they were. *)
Theorem success_output_terminated (in_msg out o : list ascii) :
  (0 < MSG_BUFFER_LENGTH)%nat →
  process_command (Ptr in_msg) (Ptr out) = Some (0, Ptr o) →
  ∃ text,
    o = padded MSG_BUFFER_LENGTH text ++ drop MSG_BUFFER_LENGTH out
    ∧ c_str o = Some text
    ∧ (length text < MSG_BUFFER_LENGTH)%nat
    ∧ length o = length out.
Proof.
  intros HN H. destruct (process_command_success _ _ _ H) as (t & -> & Hout & Hn & _ & Hlt & _).
  specialize (Hlt HN). exists t. fold (padded MSG_BUFFER_LENGTH t).
  split; [done|]. split; [by apply c_str_copied|]. split; [done|].
  rewrite length_app, length_padded, length_drop by lia. lia.
Qed.

(** ** The handlers that take no argument *)

Lemma utoa_digits (n : Z) : 0 ≤ n → Forall (λ c, isdigit c = true) (utoa n).
Proof.
  intros Hn. apply (utoa_spec (Z.to_nat n)).
  split; [done|]. rewrite Nat2Z.inj_succ, Z2Nat.id by done.
  pose proof (Z.pow_gt_lin_r 10 (Z.succ n) ltac:(lia) ltac:(lia)). lia.
Qed.

Lemma utoa_no_NUL (n : Z) : 0 ≤ n → NUL ∉ utoa n.
Proof.
  intros Hn Hin. pose proof (utoa_digits n Hn) as Hd.
  rewrite Forall_forall in Hd. by specialize (Hd _ Hin).
Qed.

Lemma lltoa_no_NUL (n : Z) : NUL ∉ lltoa n.
Proof.
  unfold lltoa. destruct (n <? 0) eqn:Hlt.
  - apply Z.ltb_lt in Hlt. rewrite not_elem_of_cons. split; [done|].
    apply utoa_no_NUL. lia.
  - apply Z.ltb_ge in Hlt. by apply utoa_no_NUL.
Qed.

Lemma status_text_no_NUL : NUL ∉ status_text.
Proof.
  unfold status_text. rewrite !not_elem_of_app.
  pose proof (cast_uint32_range chip_info_cores).
  pose proof (cast_uint32_range (cast_uint32 esp_get_free_heap_size)).
  repeat split;
    first [apply lltoa_no_NUL | apply utoa_no_NUL; lia | no_nul].
Qed.

Lemma not_elem_of_take (l : list ascii) (n : nat) : NUL ∉ l → NUL ∉ take n l.
Proof.
  intros Hl Hin. apply Hl. apply elem_of_take in Hin as (i & Hi & _).
  by eapply list_elem_of_lookup_2.
Qed.

Lemma process_command_id (in_msg s out : list ascii) :
  c_str in_msg = Some s →
  (length s < MSG_BUFFER_LENGTH)%nat →
  key (tokenized s) = COMMAND_ID →
  (15 ≤ MSG_BUFFER_LENGTH ≤ length out)%nat →
  process_command (Ptr in_msg) (Ptr out)
  = Some (0, Ptr (padded MSG_BUFFER_LENGTH (chars "ID: otf2@hi.is")
                  ++ drop MSG_BUFFER_LENGTH out)).
Proof.
  intros Hin Hlen Hkey HN.
  rewrite (process_command_fits in_msg s) by done. rewrite Hkey.
  unfold process_cmd_id.
  rewrite strcpy_lit by (no_nul || (rewrite length_replicate; simpl; lia)).
  monad. rewrite bool_decide_eq_false_2 by (intros H; by apply H).
  rewrite copy_out_text; [done|no_nul| |lia].
  rewrite length_app. cbn [length]. rewrite length_drop, length_replicate. simpl. lia.
Qed.

Lemma process_command_status (in_msg s out : list ascii) :
  c_str in_msg = Some s →
  (length s < MSG_BUFFER_LENGTH)%nat →
  key (tokenized s) = COMMAND_STATUS →
  (MSG_BUFFER_LENGTH ≤ length out)%nat →
  process_command (Ptr in_msg) (Ptr out)
  = Some (0, Ptr (padded MSG_BUFFER_LENGTH (take (MSG_BUFFER_LENGTH - 1) status_text)
                  ++ drop MSG_BUFFER_LENGTH out)).
Proof.
  intros Hin Hlen Hkey HN.
  rewrite (process_command_fits in_msg s) by done. rewrite Hkey.
  change (process_cmd_status _ _)
    with (b ← snprintf (replicate MSG_BUFFER_LENGTH NUL) MSG_BUFFER_LENGTH status_text;
          Some (0, b)).
  rewrite snprintf_spec by (rewrite length_replicate; lia).
  monad. rewrite bool_decide_eq_false_2 by (intros H; by apply H).
  pose proof (not_elem_of_take status_text (MSG_BUFFER_LENGTH - 1) status_text_no_NUL) as Hn.
  assert (length (take (MSG_BUFFER_LENGTH - 1) status_text) ≤ MSG_BUFFER_LENGTH - 1)%nat
    as Hl by (rewrite length_take; lia).
  rewrite copy_out_text; [done|done| |lia].
  rewrite length_app. cbn [length]. rewrite length_drop, length_replicate. lia.
Qed.

(** Any line whose command field is "id", in any letter case and with
    any argument, is answered with the fixed identity string. *)
Theorem id_line_response (in_msg s w a out : list ascii) :
  c_str in_msg = Some s →
  (length s < MSG_BUFFER_LENGTH)%nat →
  line_of w a s →
  tolower <$> w = chars "id" →
  (15 ≤ MSG_BUFFER_LENGTH ≤ length out)%nat →
  response (process_command (Ptr in_msg) (Ptr out)) = Some (0, chars "ID: otf2@hi.is").
Proof.
  intros Hin Hlen Hline Hw HN.
  rewrite (process_command_id in_msg s); [|done..| |done].
  - unfold response. monad. by rewrite c_str_copied by (no_nul || (simpl; lia)).
  - by rewrite (tokenized_line w a s Hline), Hw.
Qed.

(** Any line whose command field is "mac", in any letter case and with
    any argument, is answered with "MAC " and the formatted address. *)
Theorem mac_line_response (in_msg s w a out : list ascii) :
  length esp_read_mac = 6%nat → Forall is_uint8 esp_read_mac →
  c_str in_msg = Some s →
  (length s < MSG_BUFFER_LENGTH)%nat →
  line_of w a s →
  tolower <$> w = chars "mac" →
  (22 ≤ MSG_BUFFER_LENGTH ≤ length out)%nat →
  response (process_command (Ptr in_msg) (Ptr out))
  = Some (0, chars "MAC " ++ format_mac esp_read_mac).
Proof.
  intros Hm Hb Hin Hlen Hline Hw HN.
  rewrite (process_command_mac in_msg s); [|done..| |done].
  - unfold response. monad. rewrite c_str_copied; [done|by apply mac_text_no_NUL|].
    rewrite length_app, length_format_mac by done. simpl. lia.
  - by rewrite (tokenized_line w a s Hline), Hw.
Qed.

(** Any line whose command field is "status" is answered with the
    uptime in whole seconds, the core count and the free heap, in this
    order, each on its own line; the text is cut to the capacity less
    one, never beyond. *)
Theorem status_line_response (in_msg s w a out : list ascii) :
  c_str in_msg = Some s →
  (length s < MSG_BUFFER_LENGTH)%nat →
  line_of w a s →
  tolower <$> w = chars "status" →
  (MSG_BUFFER_LENGTH ≤ length out)%nat →
  response (process_command (Ptr in_msg) (Ptr out))
  = Some (0, take (MSG_BUFFER_LENGTH - 1) status_text).
Proof.
  intros Hin Hlen Hline Hw HN.
  rewrite (process_command_status in_msg s); [|done..| |done].
  - unfold response. monad. rewrite c_str_copied; [done| |rewrite length_take; lia].
    apply not_elem_of_take, status_text_no_NUL.
  - by rewrite (tokenized_line w a s Hline), Hw.
Qed.

(** With buffers of 22 bytes or more and six bytes of address, a line
    that fits always has a result; its status is 0 exactly when the
    lower-cased command field is one of the four command words, and 1
    otherwise. *)
Theorem known_word_status (in_msg s w a out : list ascii) :
  length esp_read_mac = 6%nat → Forall is_uint8 esp_read_mac →
  c_str in_msg = Some s →
  (length s < MSG_BUFFER_LENGTH)%nat →
  line_of w a s →
  (22 ≤ MSG_BUFFER_LENGTH ≤ length out)%nat →
  ∃ st o,
    process_command (Ptr in_msg) (Ptr out) = Some (st, Ptr o)
    ∧ (st = 0 ∨ st = 1)
    ∧ (st = 0 ↔ tolower <$> w ∈ [chars "mac"; chars "id"; chars "status"; chars "dec"]).
Proof.
  intros Hm Hb Hin Hlen Hline HN.
  pose proof (tokenized_line w a s Hline) as Htok.
  assert (key (tokenized s) = token_of (tolower <$> w)) as Hkey by (by rewrite Htok).
  unfold token_of in Hkey.
  assert (∀ o, process_command (Ptr in_msg) (Ptr out) = Some (0, Ptr o) →
               tolower <$> w ∈ [chars "mac"; chars "id"; chars "status"; chars "dec"] →
               ∃ st o, process_command (Ptr in_msg) (Ptr out) = Some (st, Ptr o)
                       ∧ (st = 0 ∨ st = 1)
                       ∧ (st = 0 ↔ tolower <$> w
                                    ∈ [chars "mac"; chars "id"; chars "status"; chars "dec"]))
    as Hknown.
  { intros o Hrun Hin'. exists 0, o. split; [done|]. split; [by left|]. by split. }
  destruct (decide (tolower <$> w = chars "mac")) as [E1|E1].
  { eapply Hknown; [by apply (process_command_mac in_msg s)|]. rewrite E1. by left. }
  destruct (decide (tolower <$> w = chars "id")) as [E2|E2].
  { eapply Hknown; [apply (process_command_id in_msg s); (done || lia)|].
    rewrite E2. right. by left. }
  destruct (decide (tolower <$> w = chars "status")) as [E3|E3].
  { eapply Hknown; [apply (process_command_status in_msg s); (done || lia)|].
    rewrite E3. right. right. by left. }
  destruct (decide (tolower <$> w = chars "dec")) as [E4|E4].
  { eapply Hknown.
    - apply (process_command_dec in_msg s out); try done.
      pose proof (length_dec_response (split_line s).2). lia.
    - rewrite E4. right. right. right. by left. }
  exists 1, out. split.
  - rewrite (process_command_fits in_msg s) by done. by rewrite Hkey.
  - split; [by right|]. split; [done|].
    rewrite !elem_of_cons, elem_of_nil. intros [?|[?|[?|[?|[]]]]]; done.
Qed.

(** The dispatcher hands the argument of a "dec" line, untouched, to
    the handler, and the caller reads back the handler's text. *)
Theorem dec_line_response (in_msg s w a out : list ascii) :
  c_str in_msg = Some s →
  (length s < MSG_BUFFER_LENGTH)%nat →
  line_of w a s →
  tolower <$> w = chars "dec" →
  (15 ≤ MSG_BUFFER_LENGTH ≤ length out)%nat →
  ∃ text,
    response (process_command (Ptr in_msg) (Ptr out)) = Some (0, text)
    ∧ ∀ cmd buf,
        c_str (argument cmd) = Some a →
        (MSG_BUFFER_LENGTH ≤ length buf)%nat →
        process_cmd_dec cmd buf = Some (0, text ++ NUL :: drop (S (length text)) buf).
Proof.
  intros Hin Hlen Hline Hw HN.
  pose proof (tokenized_line w a s Hline) as Htok.
  assert ((split_line s).2 = a) as Ha.
  { destruct Hline as [Hbl [[-> ->]|(b & Hb & ->)]].
    - by rewrite split_line_no_blank.
    - by rewrite split_line_at_blank. }
  pose proof (length_dec_response a) as Hr.
  exists (dec_response a). split.
  - rewrite (process_command_dec in_msg s out); [|done|done| |rewrite Ha; lia].
    + unfold response. monad. rewrite Ha.
      by rewrite c_str_copied by (apply dec_response_no_NUL || lia).
    + by rewrite Htok, Hw.
  - intros cmd buf Harg Hbuf. apply process_cmd_dec_spec; [done|lia].
Qed.

(** ** [strtoul] on signed numerals in any base *)

Lemma digit_val_facts (c : ascii) (d : Z) :
  digit_val c = Some d →
  isspace c = false ∧ c ≠ "-"%char ∧ c ≠ "+"%char ∧ c ≠ NUL ∧ 0 ≤ d
  ∧ (d < 10 → isdigit c = true)
  ∧ (d < 16 → c ≠ "x"%char ∧ c ≠ "X"%char).
Proof.
  destruct c as [[] [] [] [] [] [] [] []]; intros H; vm_compute in H;
    try discriminate H; injection H as <-;
    (split; [reflexivity|]); (split; [discriminate|]); (split; [discriminate|]);
    (split; [discriminate|]); (split; [lia|]);
    (split; [intros; (reflexivity || lia)|]);
    intros; (lia || (split; discriminate)).
Qed.

Lemma is_digit_of_inv (base : Z) (c : ascii) :
  is_digit_of base c = true → ∃ d, digit_val c = Some d ∧ 0 ≤ d < base.
Proof.
  unfold is_digit_of. destruct (digit_val c) as [d|] eqn:Hd; [|done].
  intros Hlt%Z.ltb_lt. exists d. split; [done|].
  destruct (digit_val_facts c d Hd) as (_ & _ & _ & _ & ? & _). lia.
Qed.

Lemma scan_digits_base (base : Z) (ds rest : list ascii) (acc : Z) :
  Forall (λ c, is_digit_of base c = true) ds →
  (∀ c, head rest = Some c → is_digit_of base c = false) →
  scan_digits base (ds ++ rest) acc
  = (foldl (λ a c, a * base + default 0 (digit_val c)) acc ds, length ds).
Proof.
  intros Hds Hrest. revert acc.
  induction Hds as [|c ds Hc _ IH]; intros acc; cbn [app foldl length].
  - destruct rest as [|c rest]; [done|]. cbn [scan_digits].
    specialize (Hrest c eq_refl). unfold is_digit_of in Hrest.
    destruct (digit_val c); [by rewrite Hrest|done].
  - cbn [scan_digits]. destruct (is_digit_of_inv base c Hc) as (d & Hd & Hr).
    rewrite Hd. rewrite (proj2 (Z.ltb_lt d base)) by lia. by rewrite IH.
Qed.

Lemma numeral_fold_nonneg (base : Z) (ds : list ascii) (acc : Z) :
  0 ≤ base → Forall (λ c, is_digit_of base c = true) ds → 0 ≤ acc →
  0 ≤ foldl (λ a c, a * base + default 0 (digit_val c)) acc ds.
Proof.
  intros Hb Hds. revert acc. induction Hds as [|c ds Hc _ IH]; intros acc Hacc; simpl; [done|].
  destruct (is_digit_of_inv base c Hc) as (d & -> & Hr). apply IH. simpl. nia.
Qed.

Lemma scan_hex_prefix_digits (base : Z) (ds : list ascii) :
  base ≤ 16 → Forall (λ c, is_digit_of base c = true) ds → scan_hex_prefix base ds = O.
Proof.
  intros Hb Hds. unfold scan_hex_prefix.
  destruct ds as [|z [|x [|h r]]]; try done.
  apply Forall_inv_tail, Forall_inv in Hds.
  destruct (is_digit_of_inv base x Hds) as (d & Hd & Hr).
  destruct (digit_val_facts x d Hd) as (_ & _ & _ & _ & _ & _ & Hx).
  destruct Hx as [Hx1 Hx2]; [lia|].
  rewrite (bool_decide_eq_false_2 (x = "x"%char)), (bool_decide_eq_false_2 (x = "X"%char))
    by done.
  by rewrite andb_false_r, andb_false_l.
Qed.

(** Blanks, an optional sign and a numeral of the base, up to the end of
    the string: everything is consumed; the value is clamped at
    [ULONG_MAX], and otherwise negated modulo 2^32 under a minus sign. *)
Lemma strtoul_numeral (base : Z) (ws sg ds : list ascii) :
  2 ≤ base ≤ 16 →
  Forall (λ c, is_blank c = true) ws →
  sg = [] ∨ sg = ["+"%char] ∨ sg = ["-"%char] →
  ds ≠ [] →
  Forall (λ c, is_digit_of base c = true) ds →
  strtoul (ws ++ sg ++ ds) base
  = (if ULONG_MAX <? numeral_value base ds then ULONG_MAX
     else if bool_decide (sg = ["-"%char])
          then (- numeral_value base ds) mod (ULONG_MAX + 1)
          else numeral_value base ds,
     length (ws ++ sg ++ ds)).
Proof.
  intros Hbase Hws Hsg Hne Hds.
  destruct ds as [|d ds]; [done|]. clear Hne.
  destruct (is_digit_of_inv base d (Forall_inv Hds)) as (v & Hv & _).
  destruct (digit_val_facts d v Hv) as (Hsp & Hm & Hp & _).
  unfold strtoul.
  rewrite skip_space_blanks; [|done|].
  2:{ destruct Hsg as [->|[->| ->]]; simpl; intros c [= <-]; (done || reflexivity). }
  rewrite drop_app_length.
  assert (scan_sign (sg ++ d :: ds) = (length sg, bool_decide (sg = ["-"%char]))) as ->.
  { destruct Hsg as [->|[->| ->]]; simpl; [|done..]. by rewrite !decide_False. }
  replace (drop (length ws + length sg) (ws ++ sg ++ d :: ds)) with (d :: ds)
    by (by rewrite app_assoc, <- length_app, drop_app_length).
  rewrite scan_hex_prefix_digits by (done || lia).
  rewrite !Nat.add_0_r.
  replace (drop (length ws + length sg) (ws ++ sg ++ d :: ds)) with ((d :: ds) ++ [])
    by (by rewrite app_nil_r, app_assoc, <- length_app, drop_app_length).
  rewrite scan_digits_base by done.
  fold (numeral_value base (d :: ds)). cbn [length].
  f_equal. rewrite !length_app. simpl. lia.
Qed.

(** A numeral that starts the string and is followed by a character
    that is no digit of the base: [end] stops at that character. *)
Lemma strtoul_trailing (base : Z) (ds r : list ascii) (c : ascii) :
  2 ≤ base ≤ 16 → base ≠ 16 →
  ds ≠ [] →
  Forall (λ c, is_digit_of base c = true) ds →
  is_digit_of base c = false →
  (strtoul (ds ++ c :: r) base).2 = length ds.
Proof.
  intros Hbase H16 Hne Hds Hc.
  destruct ds as [|d ds]; [done|]. clear Hne.
  destruct (is_digit_of_inv base d (Forall_inv Hds)) as (v & Hv & _).
  destruct (digit_val_facts d v Hv) as (Hsp & Hm & Hp & _).
  unfold strtoul. cbn [app skip_space]. rewrite Hsp. rewrite drop_0.
  cbn [scan_sign]. rewrite !decide_False by done.
  rewrite scan_hex_prefix_other by done. cbn [Nat.add drop].
  change (d :: ds ++ c :: r) with ((d :: ds) ++ c :: r).
  rewrite scan_digits_base; [done|done|]. by intros ? [= <-].
Qed.

Lemma decimal_digits_base10 (ds : list ascii) :
  Forall (λ c, isdigit c = true) ds →
  Forall (λ c, is_digit_of 10 c = true) ds ∧ numeral_value 10 ds = decimal_value ds.
Proof.
  intros Hds. split.
  - eapply Forall_impl; [exact Hds|]. simpl. intros c Hc.
    destruct (isdigit_facts c Hc) as (Hv & Hr & _). unfold is_digit_of. rewrite Hv.
    apply Z.ltb_lt. lia.
  - unfold numeral_value, decimal_value.
    assert (∀ acc, foldl (λ a c, a * 10 + default 0 (digit_val c)) acc ds
                   = foldl (λ a c, a * 10 + (code c - 48)) acc ds) as H; [|apply H].
    induction Hds as [|c ds Hc _ IH]; intros acc; simpl; [done|].
    destruct (isdigit_facts c Hc) as (-> & _). simpl. apply IH.
Qed.

(** ** The [dec] handler on each shape of argument *)

Lemma dec_base_10 (num : list ascii) :
  head num ≠ Some "0"%char ∨ (length num ≤ 1)%nat → dec_base num = 10.
Proof.
  intros Hnum. unfold dec_base.
  destruct num as [|c [|c' r]]; [done|by rewrite andb_false_r|].
  destruct Hnum as [Hc|Hl]; [|simpl in Hl; lia].
  change (str_at (c :: c' :: r) 0) with c.
  rewrite (bool_decide_eq_false_2 (c = "0"%char)); [done|]. by intros ->.
Qed.

Lemma process_cmd_dec_text (cmd : Command) (num buf text : list ascii) :
  c_str (argument cmd) = Some num →
  dec_response num = text →
  (15 ≤ MSG_BUFFER_LENGTH ≤ length buf)%nat →
  process_cmd_dec cmd buf = Some (0, text ++ NUL :: drop (S (length text)) buf).
Proof.
  intros Harg <- HN. apply process_cmd_dec_spec; [done|].
  pose proof (length_dec_response num). lia.
Qed.

(** The handler's verdict once [strtoul] has consumed the whole
    argument with a clamped value. *)
Lemma dec_response_numeral (num : list ascii) (v : Z) :
  num ≠ [] → 0 ≤ v →
  dec_parse num
  = (cast_uint32 (if ULONG_MAX <? v then ULONG_MAX else v), length num) →
  dec_response num = if 0xFFFF <? v then chars "ARGUMENT ERROR" else utoa v.
Proof.
  intros Hne Hv Hp. unfold dec_response, dec_rejects. rewrite Hp. cbn [fst snd].
  rewrite bool_decide_eq_false_2 by (destruct num; [done|simpl; lia]).
  rewrite bool_decide_eq_true_2 by (unfold str_at; by rewrite lookup_ge_None_2).
  cbn [negb orb]. unfold cast_uint32, ULONG_MAX.
  destruct (4294967295 <? v) eqn:Hbig.
  - apply Z.ltb_lt in Hbig. rewrite (proj2 (Z.ltb_lt 65535 v)) by lia. done.
  - apply Z.ltb_ge in Hbig. by rewrite Z.mod_small by lia.
Qed.

(** The handler's verdict when [strtoul] stops before the end. *)
Lemma dec_response_leftover (num : list ascii) :
  NUL ∉ num → ((dec_parse num).2 < length num)%nat →
  dec_response num = chars "ARGUMENT ERROR".
Proof.
  intros Hn He. unfold dec_response, dec_rejects.
  rewrite str_at_NUL by done. rewrite (bool_decide_eq_true_2 _ He).
  by rewrite orb_true_r.
Qed.

(** Decimal round trip: the handler answers the decimal numeral of any
    number up to 0xFFFF with that same numeral, so its own answers are
    fixed points. *)
Theorem dec_decimal_roundtrip (cmd : Command) (buf : list ascii) (n : Z) :
  0 ≤ n ≤ 0xFFFF →
  c_str (argument cmd) = Some (utoa n) →
  (15 ≤ MSG_BUFFER_LENGTH ≤ length buf)%nat →
  process_cmd_dec cmd buf = Some (0, utoa n ++ NUL :: drop (S (length (utoa n))) buf)
  ∧ decimal_value (utoa n) = n.
Proof.
  intros Hn Harg HN.
  destruct (utoa_spec 4 n) as (Hd & Hv & Hl & Hz); [simpl; lia|].
  split; [|done].
  apply (process_cmd_dec_text cmd (utoa n)); [done| |done].
  assert (lenient [] [] (utoa n)) as Hlen.
  { split; [constructor|]. split; [by left|]. split; [|done].
    intros E. rewrite E in Hl. simpl in Hl. lia. }
  etrans; [apply (dec_response_lenient [] [] (utoa n)); [done|lia|]|by rewrite Hv].
  simpl. apply dec_base_10.
  destruct (decide (n = 0)) as [->|Hn0]; [right; simpl; lia|].
  left. intros Hh. apply Hn0. by apply Hz.
Qed.

(** No decimal numeral above 0xFFFF is accepted, however long: beyond
    32 bits [strtoul] saturates, nothing wraps around into range. *)
Theorem dec_above_range_rejected (cmd : Command) (ws sg ds buf : list ascii) :
  c_str (argument cmd) = Some (ws ++ sg ++ ds) →
  lenient ws sg ds →
  ws ++ sg ≠ [] ∨ dec_base ds = 10 →
  0xFFFF < decimal_value ds →
  (15 ≤ MSG_BUFFER_LENGTH ≤ length buf)%nat →
  process_cmd_dec cmd buf = Some (0, chars "ARGUMENT ERROR" ++ NUL :: drop 15 buf).
Proof.
  intros Harg Hl Hpath Hv HN.
  apply (process_cmd_dec_text cmd (ws ++ sg ++ ds)); [done| |done].
  assert (dec_base (ws ++ sg ++ ds) = 10) as Hbase.
  { destruct Hpath as [Hne|Hb]; [by apply dec_base_lenient|].
    destruct (decide (ws ++ sg = [])) as [He|Hne]; [|by apply dec_base_lenient].
    apply app_eq_nil in He as [-> ->]. done. }
  destruct Hl as (Hws & Hsg & Hne & Hds).
  destruct (decimal_digits_base10 ds Hds) as [Hds10 Hval].
  rewrite (dec_response_numeral _ (decimal_value ds)).
  - by rewrite (proj2 (Z.ltb_lt _ _) Hv).
  - destruct ds; [done|]. by destruct ws, sg.
  - lia.
  - unfold dec_parse. rewrite Hbase. cbn [Z.eqb Pos.eqb]. unfold strtoul_from.
    rewrite drop_0. rewrite (strtoul_numeral 10 ws sg ds); [|lia|done| |done|done].
    + rewrite Hval. rewrite bool_decide_eq_false_2; [done|].
      destruct Hsg as [->| ->]; done.
    + destruct Hsg as [->| ->]; auto.
Qed.

(** Once the digits have begun, any character that is not a decimal
    digit spoils a decimal argument, a trailing blank included: leading
    blanks are tolerated, trailing ones are not. *)
Theorem dec_trailing_rejected (cmd : Command) (ds r buf : list ascii) (c : ascii) :
  c_str (argument cmd) = Some (ds ++ c :: r) →
  ds ≠ [] →
  Forall (λ c, isdigit c = true) ds →
  head ds ≠ Some "0"%char →
  isdigit c = false →
  (15 ≤ MSG_BUFFER_LENGTH ≤ length buf)%nat →
  process_cmd_dec cmd buf = Some (0, chars "ARGUMENT ERROR" ++ NUL :: drop 15 buf).
Proof.
  intros Harg Hne Hds Hhd Hc HN.
  destruct (c_str_inv _ _ Harg) as [Hnul _].
  apply (process_cmd_dec_text cmd (ds ++ c :: r)); [done| |done].
  apply dec_response_leftover; [done|].
  destruct (decimal_digits_base10 ds Hds) as [Hds10 _].
  unfold dec_parse. rewrite dec_base_10 by (left; by destruct ds).
  cbn [Z.eqb Pos.eqb]. unfold strtoul_from. rewrite drop_0.
  pose proof (strtoul_trailing 10 ds r c ltac:(lia) ltac:(lia) Hne Hds10) as He.
  destruct (strtoul (ds ++ c :: r) 10) as [v e]. cbn [fst snd] in *.
  rewrite He.
  - rewrite length_app. simpl. lia.
  - unfold is_digit_of. destruct (digit_val c) as [d|] eqn:Hd; [|done].
    apply Z.ltb_ge. destruct (digit_val_facts c d Hd) as (_ & _ & _ & _ & _ & Hlt & _).
    destruct (decide (d < 10)) as [Hd10|]; [|lia]. rewrite Hlt in Hc; done.
Qed.

(** After a leading "0", a character that is neither the lower-case
    "x" or "b", nor an octal digit, nor something [strtoul] skips (white
    space or a sign) spoils the argument.  So the upper-case prefixes
    "0X" and "0B" are rejected although the command word may be in any
    case, and so are "08" and "09". *)
Theorem dec_leading_zero_rejected (cmd : Command) (r buf : list ascii) (c : ascii) :
  c_str (argument cmd) = Some ("0"%char :: c :: r) →
  c ≠ "x"%char → c ≠ "b"%char →
  is_digit_of 8 c = false →
  isspace c = false → c ≠ "+"%char → c ≠ "-"%char →
  (15 ≤ MSG_BUFFER_LENGTH ≤ length buf)%nat →
  process_cmd_dec cmd buf = Some (0, chars "ARGUMENT ERROR" ++ NUL :: drop 15 buf).
Proof.
  intros Harg Hx Hb Hoct Hsp Hp Hm HN.
  destruct (c_str_inv _ _ Harg) as [Hnul _].
  apply (process_cmd_dec_text cmd ("0"%char :: c :: r)); [done| |done].
  apply dec_response_leftover; [done|].
  unfold dec_parse, dec_base.
  change (str_at ("0"%char :: c :: r) 0) with "0"%char.
  change (str_at ("0"%char :: c :: r) 1) with c.
  rewrite (bool_decide_eq_true_2 ("0"%char = "0"%char)) by done.
  rewrite (bool_decide_eq_true_2 (1 < _)%nat) by (simpl; lia).
  rewrite (bool_decide_eq_false_2 (c = "b"%char)), (bool_decide_eq_false_2 (c = "x"%char))
    by done.
  cbn [andb Z.eqb Pos.eqb]. unfold strtoul_from, strtoul. cbn [drop skip_space].
  rewrite Hsp. rewrite drop_0. cbn [scan_sign]. rewrite !decide_False by done.
  rewrite scan_hex_prefix_other by done. cbn [Nat.add drop scan_digits].
  unfold is_digit_of in Hoct. destruct (digit_val c); [rewrite Hoct|]; simpl; lia.
Qed.

(** A minus sign is not an error in itself: [strtoul] negates modulo
    2^32.  "-0" is answered "0"; a magnitude from 1 to 4294901760, or
    beyond 32 bits, is rejected; a magnitude [v] from 4294901761 to
    4294967295 wraps into range and is answered with 4294967296 - v. *)
Theorem dec_minus_sign (cmd : Command) (ws ds buf : list ascii) :
  c_str (argument cmd) = Some (ws ++ "-"%char :: ds) →
  Forall (λ c, is_blank c = true) ws →
  ds ≠ [] →
  Forall (λ c, isdigit c = true) ds →
  (15 ≤ MSG_BUFFER_LENGTH ≤ length buf)%nat →
  ∃ text,
    process_cmd_dec cmd buf = Some (0, text ++ NUL :: drop (S (length text)) buf)
    ∧ text = (if decimal_value ds =? 0 then chars "0"
              else if (4294901760 <? decimal_value ds) && (decimal_value ds <=? 4294967295)
                   then utoa (4294967296 - decimal_value ds)
                   else chars "ARGUMENT ERROR").
Proof.
  intros Harg Hws Hne Hds HN. eexists. split; [|reflexivity].
  apply (process_cmd_dec_text cmd (ws ++ "-"%char :: ds)); [done| |done].
  destruct (decimal_digits_base10 ds Hds) as [Hds10 Hval].
  pose proof (decimal_fold_nonneg ds 0 Hds ltac:(lia)) as Hv0.
  fold (decimal_value ds) in Hv0.
  assert (dec_base (ws ++ "-"%char :: ds) = 10) as Hbase.
  { apply dec_base_10. left. destruct Hws as [|b ws Hb _]; [done|].
    simpl. intros [= ->]. done. }
  assert (dec_parse (ws ++ "-"%char :: ds)
          = (cast_uint32 (if ULONG_MAX <? decimal_value ds then ULONG_MAX
                          else (- decimal_value ds) mod (ULONG_MAX + 1)),
             length (ws ++ "-"%char :: ds))) as Hp.
  { unfold dec_parse. rewrite Hbase. cbn [Z.eqb Pos.eqb]. unfold strtoul_from.
    rewrite drop_0. change (ws ++ "-"%char :: ds) with (ws ++ ["-"%char] ++ ds).
    rewrite (strtoul_numeral 10 ws ["-"%char] ds) by (done || lia || auto).
    by rewrite Hval, bool_decide_eq_true_2. }
  unfold dec_response, dec_rejects. rewrite Hp. cbn [fst snd].
  rewrite bool_decide_eq_false_2 by (rewrite length_app; simpl; lia).
  rewrite bool_decide_eq_true_2 by (unfold str_at; by rewrite lookup_ge_None_2).
  cbn [negb orb]. unfold cast_uint32, ULONG_MAX.
  set (v := decimal_value ds) in *.
  destruct (v =? 0) eqn:H0.
  - apply Z.eqb_eq in H0. rewrite H0. reflexivity.
  - apply Z.eqb_neq in H0.
    destruct (4294967295 <? v) eqn:Hbig.
    + apply Z.ltb_lt in Hbig.
      rewrite (proj2 (Z.leb_gt v 4294967295)) by lia. rewrite andb_false_r. reflexivity.
    + apply Z.ltb_ge in Hbig. rewrite (proj2 (Z.leb_le v 4294967295)) by lia.
      rewrite andb_true_r.
      assert ((- v) mod (4294967295 + 1) = 4294967296 - v) as ->.
      { symmetry. apply (Z.mod_unique_pos _ _ (-1)); lia. }
      rewrite Z.mod_small by lia.
      destruct (4294901760 <? v) eqn:Hw.
      * apply Z.ltb_lt in Hw. by rewrite (proj2 (Z.ltb_ge 65535 (4294967296 - v))) by lia.
      * apply Z.ltb_ge in Hw. by rewrite (proj2 (Z.ltb_lt 65535 (4294967296 - v))) by lia.
Qed.

(** The three base prefixes: after "0x" a hexadecimal numeral (digits in
    either case), after "0b" a binary one, after a bare "0" an octal one
    is answered with its value in decimal when that is at most 0xFFFF,
    and rejected otherwise. *)
Theorem dec_prefixed_numeral (cmd : Command) (p ds buf : list ascii) (base : Z) :
  (p = chars "0x" ∧ base = 16) ∨ (p = chars "0b" ∧ base = 2) ∨ (p = chars "0" ∧ base = 8) →
  c_str (argument cmd) = Some (p ++ ds) →
  ds ≠ [] →
  Forall (λ c, is_digit_of base c = true) ds →
  (15 ≤ MSG_BUFFER_LENGTH ≤ length buf)%nat →
  ∃ text,
    process_cmd_dec cmd buf = Some (0, text ++ NUL :: drop (S (length text)) buf)
    ∧ text = (if 0xFFFF <? numeral_value base ds then chars "ARGUMENT ERROR"
              else utoa (numeral_value base ds)).
Proof.
  intros Hp Harg Hne Hds HN. eexists. split; [|reflexivity].
  apply (process_cmd_dec_text cmd (p ++ ds)); [done| |done].
  assert (2 ≤ base ≤ 16) as Hbase by (destruct Hp as [[_ ->]|[[_ ->]|[_ ->]]]; lia).
  pose proof (numeral_fold_nonneg base ds 0 ltac:(lia) Hds ltac:(lia)) as Hv0.
  fold (numeral_value base ds) in Hv0.
  pose proof (strtoul_numeral base [] [] ds Hbase ltac:(constructor) ltac:(auto) Hne Hds)
    as Hst.
  rewrite bool_decide_eq_false_2 in Hst by done. cbn [app] in Hst.
  apply dec_response_numeral; [by destruct p, ds|done|].
  destruct Hp as [[-> ->]|[[-> ->]|[-> ->]]].
  - unfold dec_parse, dec_base. simpl. unfold strtoul_from. cbn [drop].
    by rewrite drop_0, Hst.
  - unfold dec_parse, dec_base. simpl. unfold strtoul_from. cbn [drop].
    by rewrite drop_0, Hst.
  - destruct ds as [|d ds]; [done|].
    destruct (is_digit_of_inv 8 d (Forall_inv Hds)) as (v & Hv & Hr).
    destruct (digit_val_facts d v Hv) as (_ & _ & _ & _ & _ & Hdig & _).
    specialize (Hdig ltac:(lia)).
    unfold dec_parse, dec_base. cbn [chars list_ascii_of_string app].
    change (str_at ("0"%char :: d :: ds) 0) with "0"%char.
    change (str_at ("0"%char :: d :: ds) 1) with d.
    rewrite (bool_decide_eq_true_2 ("0"%char = "0"%char)) by done.
    rewrite (bool_decide_eq_true_2 (1 < _)%nat) by (simpl; lia).
    rewrite (bool_decide_eq_false_2 (d = "b"%char)), (bool_decide_eq_false_2 (d = "x"%char))
      by (intros ->; discriminate Hdig).
    cbn [andb Z.eqb Pos.eqb]. unfold strtoul_from. cbn [drop].
    rewrite ?drop_0. rewrite Hst. done.
Qed.

(** ** The formatted address identifies the bytes *)

Lemma hex_digit_inj (d d' : Z) :
  0 ≤ d < 16 → 0 ≤ d' < 16 → hex_digit d = hex_digit d' → d = d'.
Proof.
  intros Hd Hd' E.
  destruct (hex_digit_spec d Hd) as (H1 & _), (hex_digit_spec d' Hd') as (H2 & _).
  rewrite E in H1. congruence.
Qed.

Lemma hex_byte_inj (b b' : Z) :
  is_uint8 b → is_uint8 b' →
  hex_digit (b / 16) = hex_digit (b' / 16) →
  hex_digit (b mod 16) = hex_digit (b' mod 16) → b = b'.
Proof.
  intros Hb Hb' Hhi Hlo.
  destruct (nibbles b Hb) as [? ?], (nibbles b' Hb') as [? ?].
  apply hex_digit_inj in Hhi; [|done..]. apply hex_digit_inj in Hlo; [|done..].
  rewrite (Z.div_mod b 16), (Z.div_mod b' 16) by lia. lia.
Qed.

Lemma format_mac_inj (mac mac' : list Z) :
  length mac = 6%nat → length mac' = 6%nat →
  Forall is_uint8 mac → Forall is_uint8 mac' →
  format_mac mac = format_mac mac' →
  mac = mac'.
Proof.
  intros Hm Hm' Hb Hb' E.
  do 6 (destruct mac as [|? mac]; [done|]). destruct mac; [|done].
  do 6 (destruct mac' as [|? mac']; [done|]). destruct mac'; [|done].
  repeat match goal with H : Forall _ (_ :: _) |- _ => inversion_clear H end.
  unfold format_mac in E. cbn [fmap list_fmap join hex_byte app] in E.
  injection E as E.
  repeat f_equal; by apply hex_byte_inj.
Qed.

(** The formatter loses nothing: when it writes the same 17 characters
    for two addresses of six bytes, into whatever buffers, the addresses
    are the same. *)
Theorem mac_to_string_injective (mac mac' : list Z) (out out' o o' : list ascii) :
  length mac = 6%nat → length mac' = 6%nat →
  Forall is_uint8 mac → Forall is_uint8 mac' →
  (17 ≤ length out)%nat → (17 ≤ length out')%nat →
  mac_to_string (Ptr mac) (Ptr out) = Some (Ptr o) →
  mac_to_string (Ptr mac') (Ptr out') = Some (Ptr o') →
  take 17 o = take 17 o' →
  mac = mac'.
Proof.
  intros Hm Hm' Hb Hb' Hout Hout' Hrun Hrun' E.
  rewrite mac_to_string_spec in Hrun by done. injection Hrun as <-.
  rewrite mac_to_string_spec in Hrun' by done. injection Hrun' as <-.
  rewrite !take_app_length' in E by (by rewrite length_format_mac).
  by apply format_mac_inj.
Qed.

(** ** Letter case of the command word *)

(** C5: the command word may be written in any mix of letter cases, on
    a line with or without an argument.  When the line fits, the
    tokenizer stores the lower-case word and the word's token, and the
    dispatcher runs the handler of that token on the tokenized command
    and a zeroed buffer: the caller reads back that handler's text with
    status 0.  Two lines that differ only in the letter case of the
    command word, the all-lower-case one among them, are tokenized and
    dispatched alike. *)
Theorem command_word_case_insensitive
    (w : string) (k : CommandToken) (in_msg s w' a : list ascii) (cmd : Command) :
  (w, k) ∈ known_commands →
  c_str in_msg = Some s →
  line_of w' a s →
  tolower <$> w' = chars w →
  sized cmd →
  ((length s < MSG_BUFFER_LENGTH)%nat →
   parse_input (Ptr in_msg) (Ptr cmd)
   = Some (0, Ptr (mkCommand k (padded MSG_BUFFER_LENGTH (chars w))
                     (padded MSG_BUFFER_LENGTH a)))
   ∧ (∀ out,
        process_command (Ptr in_msg) (Ptr out)
        = '(command_result, str_buffer) ←
            handler_of k
              (mkCommand k (padded MSG_BUFFER_LENGTH (chars w)) (padded MSG_BUFFER_LENGTH a))
              (replicate MSG_BUFFER_LENGTH NUL);
          if bool_decide (command_result ≠ 0) then Some (command_result, Ptr out)
          else
            str_buffer ← store str_buffer (MSG_BUFFER_LENGTH - 1) NUL;
            out ← strncpy out str_buffer MSG_BUFFER_LENGTH;
            Some (0, Ptr out))
   ∧ (∀ out,
        length esp_read_mac = 6%nat → Forall is_uint8 esp_read_mac →
        (22 ≤ MSG_BUFFER_LENGTH ≤ length out)%nat →
        response (process_command (Ptr in_msg) (Ptr out))
        = Some (0, match k with
                   | COMMAND_MAC => chars "MAC " ++ format_mac esp_read_mac
                   | COMMAND_ID => chars "ID: otf2@hi.is"
                   | COMMAND_STATUS => take (MSG_BUFFER_LENGTH - 1) status_text
                   | COMMAND_DEC => dec_response a
                   | COMMAND_UNKNOWN => []
                   end)))
  ∧ (∀ in2 s2 w2,
       c_str in2 = Some s2 →
       line_of w2 a s2 →
       tolower <$> w2 = chars w →
       length s2 = length s →
       parse_input (Ptr in2) (Ptr cmd) = parse_input (Ptr in_msg) (Ptr cmd)
       ∧ ∀ out_msg, process_command (Ptr in2) out_msg = process_command (Ptr in_msg) out_msg).
Proof.
  intros Hw Hin Hline Hlow Hcmd.
  destruct (known_command_chars w k Hw) as [_ Htoken].
  assert (tokenized s = mkCommand k (padded MSG_BUFFER_LENGTH (chars w))
                          (padded MSG_BUFFER_LENGTH a)) as Htok
    by (by rewrite (tokenized_line w' a s Hline), Hlow, Htoken).
  split.
  - intros Hfit. split; [|split].
    + by rewrite (parse_input_spec in_msg s), Htok.
    + intros out. rewrite (process_command_fits in_msg s) by done. rewrite Htok.
      cbn [key]. by destruct k.
    + intros out Hm Hb HN.
      assert (key (tokenized s) = k) as Hkey by (by rewrite Htok).
      assert ((split_line s).2 = a) as Ha.
      { destruct Hline as [Hbl [[-> ->]|(b & Hb' & ->)]].
        - by rewrite split_line_no_blank.
        - by rewrite split_line_at_blank. }
      unfold known_commands in Hw. rewrite !elem_of_cons, elem_of_nil in Hw.
      destruct Hw as [[= -> ->]|[[= -> ->]|[[= -> ->]|[[= -> ->]|[]]]]].
      * rewrite (process_command_mac in_msg s) by done.
        unfold response. monad. rewrite c_str_copied; [done|by apply mac_text_no_NUL|].
        rewrite length_app, length_format_mac by done. simpl. lia.
      * rewrite (process_command_id in_msg s) by (done || lia).
        unfold response. monad. by rewrite c_str_copied by (no_nul || (simpl; lia)).
      * rewrite (process_command_status in_msg s) by (done || lia).
        unfold response. monad. rewrite c_str_copied; [done| |rewrite length_take; lia].
        apply not_elem_of_take, status_text_no_NUL.
      * pose proof (length_dec_response a) as Hr.
        rewrite (process_command_dec in_msg s out); [|done|done|done|rewrite Ha; lia].
        unfold response. monad. rewrite Ha.
        by rewrite c_str_copied by (apply dec_response_no_NUL || lia).
  - intros in2 s2 w2 Hin2 Hline2 Hlow2 Hlen.
    assert (tokenized s2 = tokenized s) as Htok2
      by (by rewrite Htok, (tokenized_line w2 a s2 Hline2), Hlow2, Htoken).
    destruct (decide (length s < MSG_BUFFER_LENGTH)%nat) as [Hfit|Hfit].
    + split.
      * rewrite (parse_input_spec in_msg s), (parse_input_spec in2 s2) by (done || lia).
        by rewrite Htok2.
      * intros [|out]; [done|].
        rewrite (process_command_fits in_msg s), (process_command_fits in2 s2)
          by (done || lia). by rewrite Htok2.
    + split.
      * by rewrite (parse_input_overlong in_msg s), (parse_input_overlong in2 s2)
          by (done || lia).
      * intros [|out]; [done|].
        by rewrite (process_command_overlong in_msg s), (process_command_overlong in2 s2)
          by (done || lia).
Qed.

End Commands.

(** * Repeated calls

    Every call asks the hardware again for the clock, the heap and the
    address, so two calls are compared under two sets of answers. *)

(** The handlers of [id] and [dec] consult no hardware: a line with one
    of these words is answered alike whatever the hardware reports. *)
Lemma hardware_free_line
    (N : nat) (mac1 mac2 : list Z) (t1 c1 h1 t2 c2 h2 : Z) (in_msg s w a out : list ascii) :
  c_str in_msg = Some s →
  line_of w a s →
  tolower <$> w = chars "id" ∨ tolower <$> w = chars "dec" →
  process_command N mac2 t2 c2 h2 (Ptr in_msg) (Ptr out)
  = process_command N mac1 t1 c1 h1 (Ptr in_msg) (Ptr out).
Proof.
  intros Hin Hline Hw.
  destruct (decide (length s < N)%nat) as [Hfit|Hfit].
  - rewrite (process_command_fits N mac1 t1 c1 h1 in_msg s),
      (process_command_fits N mac2 t2 c2 h2 in_msg s) by done.
    rewrite (tokenized_line N w a s Hline). cbn [key].
    by destruct Hw as [->| ->].
  - by rewrite (process_command_overlong N mac1 t1 c1 h1 in_msg s),
      (process_command_overlong N mac2 t2 c2 h2 in_msg s) by (done || lia).
Qed.

(** A successful call is reproduced by a later call with the same line,
    in any other output buffer and on its own result, under this
    condition: the hardware answers read by the later call (address,
    clock, cores, heap) are those of the first, or the line is an [id]
    or [dec] line.  The first call runs under the answers [mac1], [t1],
    [c1], [h1], the later one under [mac2], [t2], [c2], [h2]. *)
Theorem success_repeatable
    (N : nat) (mac1 mac2 : list Z) (t1 c1 h1 t2 c2 h2 : Z) (in_msg out o : list ascii) :
  process_command N mac1 t1 c1 h1 (Ptr in_msg) (Ptr out) = Some (0, Ptr o) →
  (mac2 = mac1 ∧ t2 = t1 ∧ c2 = c1 ∧ h2 = h1)
  ∨ (∃ s w a, c_str in_msg = Some s ∧ line_of w a s
              ∧ (tolower <$> w = chars "id" ∨ tolower <$> w = chars "dec")) →
  (∀ out2, (N ≤ length out2)%nat →
     process_command N mac2 t2 c2 h2 (Ptr in_msg) (Ptr out2)
     = Some (0, Ptr (take N o ++ drop N out2)))
  ∧ process_command N mac2 t2 c2 h2 (Ptr in_msg) (Ptr o) = Some (0, Ptr o).
Proof.
  intros H Hhw.
  assert (∀ out2, process_command N mac2 t2 c2 h2 (Ptr in_msg) (Ptr out2)
                  = process_command N mac1 t1 c1 h1 (Ptr in_msg) (Ptr out2)) as Hsame.
  { intros out2. destruct Hhw as [(-> & -> & -> & ->)|(s & w & a & Hin & Hline & Hw)]; [done|].
    by apply (hardware_free_line N mac1 mac2 t1 c1 h1 t2 c2 h2 in_msg s w a). }
  destruct (process_command_success _ _ _ _ _ _ _ _ H) as (t & -> & Hout & _ & Hl & _ & Hany).
  assert (length (t ++ replicate (N - length t) NUL) = N)
    as Hlen by (rewrite length_app, length_replicate; lia).
  split.
  - intros out2 H2. rewrite Hsame, (Hany out2 H2). by rewrite take_app_length'.
  - rewrite Hsame, Hany by (rewrite length_app, Hlen; lia).
    by rewrite drop_app_length'.
Qed.

(** * Instances

    The theorems above, at concrete buffers: 64-byte (or smaller) arrays
    filled with a visible byte, and the address 01:02:AB:CD:EF:00. *)

Lemma null_buffer_status_witness :
  (@NULL (list ascii) = NULL ∨ Ptr (@nil ascii) = NULL)
  ∧ process_command 64 [] 0 0 0 NULL (Ptr []) = Some (-1, Ptr []).
Proof.
  assert (@NULL (list ascii) = NULL ∨ Ptr (@nil ascii) = NULL) as H by (left; reflexivity).
  exact (conj H (null_buffer_status 64 [] 0 0 0 NULL (Ptr []) H)).
Defined.

Lemma overlong_line_status_witness :
  c_str (lit "dec 12345") = Some (chars "dec 12345")
  ∧ (8 ≤ length (chars "dec 12345"))%nat
  ∧ parse_input 8 (Ptr (lit "dec 12345"))
      (Ptr (mkCommand COMMAND_UNKNOWN (replicate 8 "x"%char) (replicate 8 "x"%char)))
    = Some (-2, Ptr (mkCommand COMMAND_UNKNOWN (replicate 8 "x"%char) (replicate 8 "x"%char)))
  ∧ process_command 8 [1; 2; 171; 205; 239; 0] 0 2 1000
      (Ptr (lit "dec 12345")) (Ptr (replicate 8 "x"%char))
    = Some (1, Ptr (replicate 8 "x"%char)).
Proof.
  assert (c_str (lit "dec 12345") = Some (chars "dec 12345")) as H1 by reflexivity.
  assert (8 ≤ length (chars "dec 12345"))%nat as H2 by (simpl; lia).
  exact (conj H1 (conj H2
    (overlong_line_status 8 [1; 2; 171; 205; 239; 0] 0 2 1000 _ _ _ _ H1 H2))).
Defined.

Lemma nonzero_status_leaves_output_witness :
  process_command 64 [1; 2; 171; 205; 239; 0] 0 2 1000
    (Ptr (lit "foobar")) (Ptr (replicate 64 "x"%char))
  = Some (1, Ptr (replicate 64 "x"%char))
  ∧ 1 ≠ 0
  ∧ Ptr (replicate 64 "x"%char) = Ptr (replicate 64 "x"%char)
  ∧ (1 = -1 ∨ 1 = 1).
Proof.
  assert (process_command 64 [1; 2; 171; 205; 239; 0] 0 2 1000
            (Ptr (lit "foobar")) (Ptr (replicate 64 "x"%char))
          = Some (1, Ptr (replicate 64 "x"%char))) as H1 by (vm_compute; reflexivity).
  assert (1 ≠ 0) as H2 by lia.
  destruct (nonzero_status_leaves_output 64 [1; 2; 171; 205; 239; 0] 0 2 1000 _ _ _ _ H1 H2)
    as (H3 & H4 & _).
  exact (conj H1 (conj H2 (conj H3 H4))).
Defined.

Lemma tokenizer_keeps_later_blanks_witness :
  c_str (lit "DeC  42 7") = Some (chars "DeC" ++ " "%char :: chars " 42 7")
  ∧ Forall (λ c, is_blank c = false) (chars "DeC")
  ∧ is_blank " "%char = true
  ∧ (length (chars "DeC" ++ " "%char :: chars " 42 7") < 16)%nat
  ∧ sized 16 (mkCommand COMMAND_UNKNOWN (replicate 16 "x"%char) (replicate 16 "x"%char))
  ∧ ∃ cmd',
      parse_input 16 (Ptr (lit "DeC  42 7"))
        (Ptr (mkCommand COMMAND_UNKNOWN (replicate 16 "x"%char) (replicate 16 "x"%char)))
      = Some (0, Ptr cmd')
      ∧ command cmd' = padded 16 (tolower <$> chars "DeC")
      ∧ argument cmd' = padded 16 (chars " 42 7")
      ∧ c_str (argument cmd') = Some (chars " 42 7").
Proof.
  assert (c_str (lit "DeC  42 7") = Some (chars "DeC" ++ " "%char :: chars " 42 7"))
    as H1 by reflexivity.
  assert (Forall (λ c, is_blank c = false) (chars "DeC")) as H2
    by (repeat constructor).
  assert (is_blank " "%char = true) as H3 by reflexivity.
  assert (length (chars "DeC" ++ " "%char :: chars " 42 7") < 16)%nat as H4 by (simpl; lia).
  assert (sized 16 (mkCommand COMMAND_UNKNOWN (replicate 16 "x"%char) (replicate 16 "x"%char)))
    as H5 by (split; reflexivity).
  exact (conj H1 (conj H2 (conj H3 (conj H4 (conj H5
    (tokenizer_keeps_later_blanks 16 _ _ _ _ _ H1 H2 H3 H4 H5)))))).
Defined.

Lemma command_word_case_insensitive_witness :
  ("dec"%string, COMMAND_DEC) ∈ known_commands
  ∧ c_str (lit "DeC 0x10") = Some (chars "DeC 0x10")
  ∧ line_of (chars "DeC") (chars "0x10") (chars "DeC 0x10")
  ∧ tolower <$> chars "DeC" = chars "dec"
  ∧ sized 32 (mkCommand COMMAND_UNKNOWN (replicate 32 "x"%char) (replicate 32 "x"%char))
  ∧ (length (chars "DeC 0x10") < 32)%nat
  ∧ parse_input 32 (Ptr (lit "DeC 0x10"))
      (Ptr (mkCommand COMMAND_UNKNOWN (replicate 32 "x"%char) (replicate 32 "x"%char)))
    = Some (0, Ptr (mkCommand COMMAND_DEC (padded 32 (chars "dec")) (padded 32 (chars "0x10"))))
  ∧ response (process_command 32 [1; 2; 171; 205; 239; 0] 123456789 2 200000
                (Ptr (lit "DeC 0x10")) (Ptr (replicate 32 "x"%char)))
    = Some (0, dec_response (chars "0x10"))
  ∧ (∀ out_msg,
       process_command 32 [1; 2; 171; 205; 239; 0] 123456789 2 200000
         (Ptr (lit "dec 0x10")) out_msg
       = process_command 32 [1; 2; 171; 205; 239; 0] 123456789 2 200000
           (Ptr (lit "DeC 0x10")) out_msg).
Proof.
  assert (("dec"%string, COMMAND_DEC) ∈ known_commands) as H1
    by (unfold known_commands; repeat constructor).
  assert (c_str (lit "DeC 0x10") = Some (chars "DeC 0x10")) as H2 by reflexivity.
  assert (line_of (chars "DeC") (chars "0x10") (chars "DeC 0x10")) as H3.
  { split; [repeat constructor|]. right. exists " "%char. split; reflexivity. }
  assert (tolower <$> chars "DeC" = chars "dec") as H4 by reflexivity.
  assert (sized 32 (mkCommand COMMAND_UNKNOWN (replicate 32 "x"%char) (replicate 32 "x"%char)))
    as H5 by (split; reflexivity).
  assert (length (chars "DeC 0x10") < 32)%nat as H6 by (simpl; lia).
  destruct (command_word_case_insensitive 32 [1; 2; 171; 205; 239; 0] 123456789 2 200000
              _ _ _ _ _ _ _ H1 H2 H3 H4 H5) as [Hfit Hagree].
  destruct (Hfit H6) as (Hparse & _ & Htext).
  assert (line_of (chars "dec") (chars "0x10") (chars "dec 0x10")) as H7.
  { split; [repeat constructor|]. right. exists " "%char. split; reflexivity. }
  exact (conj H1 (conj H2 (conj H3 (conj H4 (conj H5 (conj H6 (conj Hparse
    (conj (Htext (replicate 32 "x"%char) eq_refl
             ltac:(repeat constructor; unfold is_uint8; lia)
             ltac:(simpl; lia))
          (proj2 (Hagree (lit "dec 0x10") (chars "dec 0x10") (chars "dec")
                    eq_refl H7 eq_refl eq_refl)))))))))).
Defined.

Lemma dec_examples_witness :
  (15 ≤ 64 ≤ length (replicate 64 "x"%char))%nat
  ∧ response (process_command 64 [1; 2; 171; 205; 239; 0] 0 2 1000
                (Ptr (lit "dec 0x10")) (Ptr (replicate 64 "x"%char)))
    = Some (0, chars "16")
  ∧ response (process_command 64 [1; 2; 171; 205; 239; 0] 0 2 1000
                (Ptr (lit "dec 65536")) (Ptr (replicate 64 "x"%char)))
    = Some (0, chars "ARGUMENT ERROR").
Proof.
  assert (15 ≤ 64 ≤ length (replicate 64 "x"%char))%nat as H by (simpl; lia).
  destruct (dec_examples 64 [1; 2; 171; 205; 239; 0] 0 2 1000 _ H)
    as (_ & _ & _ & _ & H16 & _ & _ & _ & Herr & _).
  exact (conj H (conj H16 Herr)).
Defined.

Lemma dec_lenient_prefix_witness :
  c_str (argument (mkCommand COMMAND_DEC (padded 16 (chars "dec")) (padded 16 (chars " +42"))))
  = Some ([" "%char] ++ ["+"%char] ++ chars "42")
  ∧ lenient [" "%char] ["+"%char] (chars "42")
  ∧ decimal_value (chars "42") ≤ 0xFFFF
  ∧ ([" "%char] ++ ["+"%char] ≠ [] ∨ dec_base (chars "42") = 10)
  ∧ (6 ≤ 16 ≤ length (replicate 16 "x"%char))%nat
  ∧ process_cmd_dec 16
      (mkCommand COMMAND_DEC (padded 16 (chars "dec")) (padded 16 (chars " +42")))
      (replicate 16 "x"%char)
    = Some (0, chars "42" ++ NUL :: replicate 13 "x"%char).
Proof.
  assert (c_str (argument (mkCommand COMMAND_DEC (padded 16 (chars "dec"))
                             (padded 16 (chars " +42"))))
          = Some ([" "%char] ++ ["+"%char] ++ chars "42")) as H1 by reflexivity.
  assert (lenient [" "%char] ["+"%char] (chars "42")) as H2.
  { split; [repeat constructor|]. split; [right; reflexivity|].
    split; [discriminate|repeat constructor]. }
  assert (decimal_value (chars "42") ≤ 0xFFFF) as H3 by (vm_compute; discriminate).
  assert ([" "%char] ++ ["+"%char] ≠ [] ∨ dec_base (chars "42") = 10) as H4
    by (left; discriminate).
  assert (6 ≤ 16 ≤ length (replicate 16 "x"%char))%nat as H5 by (simpl; lia).
  destruct (dec_lenient_prefix 16 [1; 2; 171; 205; 239; 0] 0 2 1000 _ _ _ _ _ H1 H2 H3 H4 H5)
    as (Hrun & _).
  exact (conj H1 (conj H2 (conj H3 (conj H4 (conj H5 Hrun))))).
Defined.

Lemma dec_bare_prefix_accepted_witness :
  (15 ≤ 64 ≤ length (replicate 64 "x"%char))%nat
  ∧ documented_rejects (chars "0x") = true
  ∧ response (process_command 64 [1; 2; 171; 205; 239; 0] 0 2 1000
                (Ptr (lit "dec 0x")) (Ptr (replicate 64 "x"%char)))
    = Some (0, chars "0").
Proof.
  assert (15 ≤ 64 ≤ length (replicate 64 "x"%char))%nat as H by (simpl; lia).
  destruct (dec_bare_prefix_accepted 64 [1; 2; 171; 205; 239; 0] 0 2 1000 _ H)
    as (Hdoc & _ & Hrun & _).
  exact (conj H (conj Hdoc Hrun)).
Defined.

Lemma mac_to_string_format_witness :
  length [1; 2; 171; 205; 239; 0] = 6%nat
  ∧ Forall is_uint8 [1; 2; 171; 205; 239; 0]
  ∧ (17 ≤ length (replicate 20 "x"%char))%nat
  ∧ mac_to_string (Ptr [1; 2; 171; 205; 239; 0]) (Ptr (replicate 20 "x"%char))
    = Some (Ptr (chars "01:02:AB:CD:EF:00xxx")).
Proof.
  assert (length [1; 2; 171; 205; 239; 0] = 6%nat) as H1 by reflexivity.
  assert (Forall is_uint8 [1; 2; 171; 205; 239; 0]) as H2
    by (repeat constructor; unfold is_uint8; lia).
  assert (17 ≤ length (replicate 20 "x"%char))%nat as H3 by (simpl; lia).
  destruct (mac_to_string_format _ _ H1 H2 H3) as (Hrun & _).
  exact (conj H1 (conj H2 (conj H3 Hrun))).
Defined.

Lemma mac_to_string_frame_witness :
  length [1; 2; 171; 205; 239; 0] = 6%nat
  ∧ Forall is_uint8 [1; 2; 171; 205; 239; 0]
  ∧ (∃ buf',
       process_cmd_mac [1; 2; 171; 205; 239; 0]
         (mkCommand COMMAND_MAC (padded 32 (chars "mac")) (padded 32 [])) (alloca 32)
       = Some (0, buf')
       ∧ take 21 buf' = chars "MAC 01:02:AB:CD:EF:00"
       ∧ buf' !! 21%nat = Some indeterminate)
  ∧ response (process_command 32 [1; 2; 171; 205; 239; 0] 0 2 1000
                (Ptr (lit "mac")) (Ptr (replicate 32 "x"%char)))
    = Some (0, chars "MAC 01:02:AB:CD:EF:00").
Proof.
  assert (length [1; 2; 171; 205; 239; 0] = 6%nat) as H1 by reflexivity.
  assert (Forall is_uint8 [1; 2; 171; 205; 239; 0]) as H2
    by (repeat constructor; unfold is_uint8; lia).
  assert (22 ≤ length (alloca 32))%nat as H3 by (simpl; lia).
  assert (22 ≤ 32 ≤ length (replicate 32 "x"%char))%nat as H4 by (simpl; lia).
  destruct (mac_to_string_frame 32 [1; 2; 171; 205; 239; 0] 0 2 1000 H1 H2)
    as (_ & Hbuf & _ & Hrun).
  exact (conj H1 (conj H2 (conj (Hbuf _ _ H3) (Hrun _ H4)))).
Defined.

(** ** Instances of the further properties *)

Lemma process_command_defined_witness :
  c_str (lit "status") = Some (chars "status")
  ∧ length [1; 2; 171; 205; 239; 0] = 6%nat
  ∧ Forall is_uint8 [1; 2; 171; 205; 239; 0]
  ∧ (22 ≤ 32 ≤ length (replicate 32 "x"%char))%nat
  ∧ ∃ st out',
      process_command 32 [1; 2; 171; 205; 239; 0] 123456789 2 200000
        (Ptr (lit "status")) (Ptr (replicate 32 "x"%char)) = Some (st, Ptr out').
Proof.
  assert (c_str (lit "status") = Some (chars "status")) as H1 by reflexivity.
  assert (length [1; 2; 171; 205; 239; 0] = 6%nat) as H2 by reflexivity.
  assert (Forall is_uint8 [1; 2; 171; 205; 239; 0]) as H3
    by (repeat constructor; unfold is_uint8; lia).
  assert (22 ≤ 32 ≤ length (replicate 32 "x"%char))%nat as H4 by (simpl; lia).
  exact (conj H1 (conj H2 (conj H3 (conj H4
    (process_command_defined 32 _ 123456789 2 200000 _ _ _ H1 H2 H3 H4))))).
Defined.

Lemma tokenizer_result_witness :
  c_str (lit "DeC 0x1F") = Some (chars "DeC 0x1F")
  ∧ (length (chars "DeC 0x1F") < 16)%nat
  ∧ sized 16 (mkCommand COMMAND_MAC (replicate 16 "x"%char) (replicate 16 "y"%char))
  ∧ ∃ w a,
      line_of w a (chars "DeC 0x1F")
      ∧ parse_input 16 (Ptr (lit "DeC 0x1F"))
          (Ptr (mkCommand COMMAND_MAC (replicate 16 "x"%char) (replicate 16 "y"%char)))
        = Some (0, Ptr (mkCommand (token_of (tolower <$> w))
                          (padded 16 (tolower <$> w)) (padded 16 a))).
Proof.
  assert (c_str (lit "DeC 0x1F") = Some (chars "DeC 0x1F")) as H1 by reflexivity.
  assert (length (chars "DeC 0x1F") < 16)%nat as H2 by (simpl; lia).
  assert (sized 16 (mkCommand COMMAND_MAC (replicate 16 "x"%char) (replicate 16 "y"%char)))
    as H3 by (split; reflexivity).
  exact (conj H1 (conj H2 (conj H3 (tokenizer_result 16 _ _ _ H1 H2 H3)))).
Defined.

Lemma tokenizer_invariant_witness :
  c_str (lit "DeC 0x1F") = Some (chars "DeC 0x1F")
  ∧ (length (chars "DeC 0x1F") < 16)%nat
  ∧ sized 16 (mkCommand COMMAND_MAC (replicate 16 "x"%char) (replicate 16 "y"%char))
  ∧ ∃ cmd' name arg,
      parse_input 16 (Ptr (lit "DeC 0x1F"))
        (Ptr (mkCommand COMMAND_MAC (replicate 16 "x"%char) (replicate 16 "y"%char)))
      = Some (0, Ptr cmd')
      ∧ sized 16 cmd'
      ∧ c_str (command cmd') = Some name
      ∧ c_str (argument cmd') = Some arg
      ∧ (length name + length arg ≤ length (chars "DeC 0x1F"))%nat
      ∧ Forall (λ c, isupper c = false ∧ is_blank c = false) name.
Proof.
  assert (c_str (lit "DeC 0x1F") = Some (chars "DeC 0x1F")) as H1 by reflexivity.
  assert (length (chars "DeC 0x1F") < 16)%nat as H2 by (simpl; lia).
  assert (sized 16 (mkCommand COMMAND_MAC (replicate 16 "x"%char) (replicate 16 "y"%char)))
    as H3 by (split; reflexivity).
  exact (conj H1 (conj H2 (conj H3 (tokenizer_invariant 16 _ _ _ H1 H2 H3)))).
Defined.

Lemma unknown_word_status_witness :
  c_str (lit "Help me") = Some (chars "Help me")
  ∧ (length (chars "Help me") < 32)%nat
  ∧ line_of (chars "Help") (chars "me") (chars "Help me")
  ∧ (tolower <$> chars "Help" ∉ [chars "mac"; chars "id"; chars "status"; chars "dec"])
  ∧ process_command 32 [1; 2; 171; 205; 239; 0] 123456789 2 200000
      (Ptr (lit "Help me")) (Ptr (replicate 32 "x"%char))
    = Some (1, Ptr (replicate 32 "x"%char)).
Proof.
  assert (c_str (lit "Help me") = Some (chars "Help me")) as H1 by reflexivity.
  assert (length (chars "Help me") < 32)%nat as H2 by (simpl; lia).
  assert (line_of (chars "Help") (chars "me") (chars "Help me")) as H3.
  { split; [repeat constructor|]. right. exists " "%char. split; reflexivity. }
  assert (tolower <$> chars "Help" ∉ [chars "mac"; chars "id"; chars "status"; chars "dec"])
    as H4.
  { rewrite !not_elem_of_cons. repeat split; try discriminate. apply not_elem_of_nil. }
  exact (conj H1 (conj H2 (conj H3 (conj H4
    (unknown_word_status 32 [1; 2; 171; 205; 239; 0] 123456789 2 200000
       _ _ _ _ _ H1 H2 H3 H4))))).
Defined.

Lemma leading_blank_status_witness :
  c_str (lit " mac") = Some (chars " mac")
  ∧ (head (chars " mac") = None
     ∨ ∃ b, head (chars " mac") = Some b ∧ is_blank b = true)
  ∧ process_command 32 [1; 2; 171; 205; 239; 0] 123456789 2 200000
      (Ptr (lit " mac")) (Ptr (replicate 32 "x"%char))
    = Some (1, Ptr (replicate 32 "x"%char)).
Proof.
  assert (c_str (lit " mac") = Some (chars " mac")) as H1 by reflexivity.
  assert (head (chars " mac") = None
          ∨ ∃ b, head (chars " mac") = Some b ∧ is_blank b = true) as H2.
  { right. exists " "%char. split; reflexivity. }
  exact (conj H1 (conj H2
    (leading_blank_status 32 [1; 2; 171; 205; 239; 0] 123456789 2 200000 _ _ _ H1 H2))).
Defined.

Lemma success_output_terminated_witness :
  (0 < 32)%nat
  ∧ process_command 32 [1; 2; 171; 205; 239; 0] 123456789 2 200000
      (Ptr (lit "id")) (Ptr (replicate 40 "x"%char))
    = Some (0, Ptr (padded 32 (chars "ID: otf2@hi.is") ++ replicate 8 "x"%char))
  ∧ ∃ text,
      padded 32 (chars "ID: otf2@hi.is") ++ replicate 8 "x"%char
      = padded 32 text ++ drop 32 (replicate 40 "x"%char)
      ∧ c_str (padded 32 (chars "ID: otf2@hi.is") ++ replicate 8 "x"%char) = Some text
      ∧ (length text < 32)%nat
      ∧ length (padded 32 (chars "ID: otf2@hi.is") ++ replicate 8 "x"%char)
        = length (replicate 40 "x"%char).
Proof.
  assert (0 < 32)%nat as H1 by lia.
  assert (process_command 32 [1; 2; 171; 205; 239; 0] 123456789 2 200000
            (Ptr (lit "id")) (Ptr (replicate 40 "x"%char))
          = Some (0, Ptr (padded 32 (chars "ID: otf2@hi.is") ++ replicate 8 "x"%char)))
    as H2 by (vm_compute; reflexivity).
  exact (conj H1 (conj H2
    (success_output_terminated 32 [1; 2; 171; 205; 239; 0] 123456789 2 200000
       _ _ _ H1 H2))).
Defined.

Lemma success_repeatable_witness :
  process_command 32 [1; 2; 171; 205; 239; 0] 123456789 2 200000
    (Ptr (lit "DEC 0x10")) (Ptr (replicate 40 "x"%char))
  = Some (0, Ptr (padded 32 (chars "16") ++ replicate 8 "x"%char))
  ∧ (([0; 0; 0; 0; 0; 9] = [1; 2; 171; 205; 239; 0] ∧ 987654321 = 123456789 ∧ 1 = 2
      ∧ 150000 = 200000)
     ∨ (∃ s w a, c_str (lit "DEC 0x10") = Some s ∧ line_of w a s
                 ∧ (tolower <$> w = chars "id" ∨ tolower <$> w = chars "dec")))
  ∧ process_command 32 [0; 0; 0; 0; 0; 9] 987654321 1 150000
      (Ptr (lit "DEC 0x10")) (Ptr (padded 32 (chars "16") ++ replicate 8 "x"%char))
    = Some (0, Ptr (padded 32 (chars "16") ++ replicate 8 "x"%char)).
Proof.
  assert (process_command 32 [1; 2; 171; 205; 239; 0] 123456789 2 200000
            (Ptr (lit "DEC 0x10")) (Ptr (replicate 40 "x"%char))
          = Some (0, Ptr (padded 32 (chars "16") ++ replicate 8 "x"%char)))
    as H1 by (vm_compute; reflexivity).
  assert (([0; 0; 0; 0; 0; 9] = [1; 2; 171; 205; 239; 0] ∧ 987654321 = 123456789 ∧ 1 = 2
           ∧ 150000 = 200000)
          ∨ (∃ s w a, c_str (lit "DEC 0x10") = Some s ∧ line_of w a s
                      ∧ (tolower <$> w = chars "id" ∨ tolower <$> w = chars "dec"))) as H2.
  { right. exists (chars "DEC 0x10"), (chars "DEC"), (chars "0x10").
    split; [reflexivity|]. split; [|right; reflexivity].
    split; [repeat constructor|]. right. exists " "%char. split; reflexivity. }
  exact (conj H1 (conj H2 (proj2
    (success_repeatable 32 [1; 2; 171; 205; 239; 0] [0; 0; 0; 0; 0; 9]
       123456789 2 200000 987654321 1 150000 _ _ _ H1 H2)))).
Defined.

Lemma id_line_response_witness :
  c_str (lit "ID please") = Some (chars "ID please")
  ∧ (length (chars "ID please") < 32)%nat
  ∧ line_of (chars "ID") (chars "please") (chars "ID please")
  ∧ tolower <$> chars "ID" = chars "id"
  ∧ (15 ≤ 32 ≤ length (replicate 32 "x"%char))%nat
  ∧ response (process_command 32 [1; 2; 171; 205; 239; 0] 123456789 2 200000
                (Ptr (lit "ID please")) (Ptr (replicate 32 "x"%char)))
    = Some (0, chars "ID: otf2@hi.is").
Proof.
  assert (c_str (lit "ID please") = Some (chars "ID please")) as H1 by reflexivity.
  assert (length (chars "ID please") < 32)%nat as H2 by (simpl; lia).
  assert (line_of (chars "ID") (chars "please") (chars "ID please")) as H3.
  { split; [repeat constructor|]. right. exists " "%char. split; reflexivity. }
  assert (tolower <$> chars "ID" = chars "id") as H4 by reflexivity.
  assert (15 ≤ 32 ≤ length (replicate 32 "x"%char))%nat as H5 by (simpl; lia).
  exact (conj H1 (conj H2 (conj H3 (conj H4 (conj H5
    (id_line_response 32 [1; 2; 171; 205; 239; 0] 123456789 2 200000
       _ _ _ _ _ H1 H2 H3 H4 H5)))))).
Defined.

Lemma mac_line_response_witness :
  length [1; 2; 171; 205; 239; 0] = 6%nat
  ∧ Forall is_uint8 [1; 2; 171; 205; 239; 0]
  ∧ c_str (lit "Mac now") = Some (chars "Mac now")
  ∧ (length (chars "Mac now") < 32)%nat
  ∧ line_of (chars "Mac") (chars "now") (chars "Mac now")
  ∧ tolower <$> chars "Mac" = chars "mac"
  ∧ (22 ≤ 32 ≤ length (replicate 32 "x"%char))%nat
  ∧ response (process_command 32 [1; 2; 171; 205; 239; 0] 123456789 2 200000
                (Ptr (lit "Mac now")) (Ptr (replicate 32 "x"%char)))
    = Some (0, chars "MAC 01:02:AB:CD:EF:00").
Proof.
  assert (length [1; 2; 171; 205; 239; 0] = 6%nat) as H1 by reflexivity.
  assert (Forall is_uint8 [1; 2; 171; 205; 239; 0]) as H2
    by (repeat constructor; unfold is_uint8; lia).
  assert (c_str (lit "Mac now") = Some (chars "Mac now")) as H3 by reflexivity.
  assert (length (chars "Mac now") < 32)%nat as H4 by (simpl; lia).
  assert (line_of (chars "Mac") (chars "now") (chars "Mac now")) as H5.
  { split; [repeat constructor|]. right. exists " "%char. split; reflexivity. }
  assert (tolower <$> chars "Mac" = chars "mac") as H6 by reflexivity.
  assert (22 ≤ 32 ≤ length (replicate 32 "x"%char))%nat as H7 by (simpl; lia).
  exact (conj H1 (conj H2 (conj H3 (conj H4 (conj H5 (conj H6 (conj H7
    (mac_line_response 32 [1; 2; 171; 205; 239; 0] 123456789 2 200000
       _ _ _ _ _ H1 H2 H3 H4 H5 H6 H7)))))))).
Defined.

Lemma status_line_response_witness :
  c_str (lit "status") = Some (chars "status")
  ∧ (length (chars "status") < 32)%nat
  ∧ line_of (chars "status") [] (chars "status")
  ∧ tolower <$> chars "status" = chars "status"
  ∧ (32 ≤ length (replicate 32 "x"%char))%nat
  ∧ response (process_command 32 [1; 2; 171; 205; 239; 0] 123456789 2 200000
                (Ptr (lit "status")) (Ptr (replicate 32 "x"%char)))
    = Some (0, chars "SYSTEM_UPTIME: 123 S " ++ [newline] ++ chars "AVAILABLE").
Proof.
  assert (c_str (lit "status") = Some (chars "status")) as H1 by reflexivity.
  assert (length (chars "status") < 32)%nat as H2 by (simpl; lia).
  assert (line_of (chars "status") [] (chars "status")) as H3.
  { split; [repeat constructor|]. left. split; reflexivity. }
  assert (tolower <$> chars "status" = chars "status") as H4 by reflexivity.
  assert (32 ≤ length (replicate 32 "x"%char))%nat as H5 by (simpl; lia).
  exact (conj H1 (conj H2 (conj H3 (conj H4 (conj H5
    (status_line_response 32 [1; 2; 171; 205; 239; 0] 123456789 2 200000
       _ _ _ _ _ H1 H2 H3 H4 H5)))))).
Defined.

Lemma known_word_status_witness :
  length [1; 2; 171; 205; 239; 0] = 6%nat
  ∧ Forall is_uint8 [1; 2; 171; 205; 239; 0]
  ∧ c_str (lit "Mac now") = Some (chars "Mac now")
  ∧ (length (chars "Mac now") < 32)%nat
  ∧ line_of (chars "Mac") (chars "now") (chars "Mac now")
  ∧ (22 ≤ 32 ≤ length (replicate 32 "x"%char))%nat
  ∧ ∃ st o,
      process_command 32 [1; 2; 171; 205; 239; 0] 123456789 2 200000
        (Ptr (lit "Mac now")) (Ptr (replicate 32 "x"%char)) = Some (st, Ptr o)
      ∧ (st = 0 ∨ st = 1)
      ∧ (st = 0 ↔ tolower <$> chars "Mac"
                   ∈ [chars "mac"; chars "id"; chars "status"; chars "dec"]).
Proof.
  assert (length [1; 2; 171; 205; 239; 0] = 6%nat) as H1 by reflexivity.
  assert (Forall is_uint8 [1; 2; 171; 205; 239; 0]) as H2
    by (repeat constructor; unfold is_uint8; lia).
  assert (c_str (lit "Mac now") = Some (chars "Mac now")) as H3 by reflexivity.
  assert (length (chars "Mac now") < 32)%nat as H4 by (simpl; lia).
  assert (line_of (chars "Mac") (chars "now") (chars "Mac now")) as H5.
  { split; [repeat constructor|]. right. exists " "%char. split; reflexivity. }
  assert (22 ≤ 32 ≤ length (replicate 32 "x"%char))%nat as H6 by (simpl; lia).
  exact (conj H1 (conj H2 (conj H3 (conj H4 (conj H5 (conj H6
    (known_word_status 32 [1; 2; 171; 205; 239; 0] 123456789 2 200000
       _ _ _ _ _ H1 H2 H3 H4 H5 H6))))))).
Defined.

Lemma dec_line_response_witness :
  c_str (lit "DEC 0b101") = Some (chars "DEC 0b101")
  ∧ (length (chars "DEC 0b101") < 32)%nat
  ∧ line_of (chars "DEC") (chars "0b101") (chars "DEC 0b101")
  ∧ tolower <$> chars "DEC" = chars "dec"
  ∧ (15 ≤ 32 ≤ length (replicate 32 "x"%char))%nat
  ∧ ∃ text,
      response (process_command 32 [1; 2; 171; 205; 239; 0] 123456789 2 200000
                  (Ptr (lit "DEC 0b101")) (Ptr (replicate 32 "x"%char)))
      = Some (0, text)
      ∧ ∀ cmd buf,
          c_str (argument cmd) = Some (chars "0b101") →
          (32 ≤ length buf)%nat →
          process_cmd_dec 32 cmd buf = Some (0, text ++ NUL :: drop (S (length text)) buf).
Proof.
  assert (c_str (lit "DEC 0b101") = Some (chars "DEC 0b101")) as H1 by reflexivity.
  assert (length (chars "DEC 0b101") < 32)%nat as H2 by (simpl; lia).
  assert (line_of (chars "DEC") (chars "0b101") (chars "DEC 0b101")) as H3.
  { split; [repeat constructor|]. right. exists " "%char. split; reflexivity. }
  assert (tolower <$> chars "DEC" = chars "dec") as H4 by reflexivity.
  assert (15 ≤ 32 ≤ length (replicate 32 "x"%char))%nat as H5 by (simpl; lia).
  exact (conj H1 (conj H2 (conj H3 (conj H4 (conj H5
    (dec_line_response 32 [1; 2; 171; 205; 239; 0] 123456789 2 200000
       _ _ _ _ _ H1 H2 H3 H4 H5)))))).
Defined.

Lemma dec_decimal_roundtrip_witness :
  0 ≤ 65535 ≤ 0xFFFF
  ∧ c_str (argument (mkCommand COMMAND_DEC (padded 16 (chars "dec"))
                       (padded 16 (chars "65535")))) = Some (utoa 65535)
  ∧ (15 ≤ 16 ≤ length (replicate 16 "x"%char))%nat
  ∧ process_cmd_dec 16
      (mkCommand COMMAND_DEC (padded 16 (chars "dec")) (padded 16 (chars "65535")))
      (replicate 16 "x"%char)
    = Some (0, chars "65535" ++ NUL :: replicate 10 "x"%char)
  ∧ decimal_value (utoa 65535) = 65535.
Proof.
  assert (0 ≤ 65535 ≤ 0xFFFF) as H1 by lia.
  assert (c_str (argument (mkCommand COMMAND_DEC (padded 16 (chars "dec"))
                             (padded 16 (chars "65535")))) = Some (utoa 65535))
    as H2 by reflexivity.
  assert (15 ≤ 16 ≤ length (replicate 16 "x"%char))%nat as H3 by (simpl; lia).
  exact (conj H1 (conj H2 (conj H3 (dec_decimal_roundtrip 16 _ _ _ H1 H2 H3)))).
Defined.

Lemma dec_above_range_rejected_witness :
  c_str (argument (mkCommand COMMAND_DEC (padded 16 (chars "dec"))
                     (padded 16 (chars "99999999999"))))
  = Some ([] ++ [] ++ chars "99999999999")
  ∧ lenient [] [] (chars "99999999999")
  ∧ (@nil ascii ++ [] ≠ [] ∨ dec_base (chars "99999999999") = 10)
  ∧ 0xFFFF < decimal_value (chars "99999999999")
  ∧ (15 ≤ 16 ≤ length (replicate 16 "x"%char))%nat
  ∧ process_cmd_dec 16
      (mkCommand COMMAND_DEC (padded 16 (chars "dec")) (padded 16 (chars "99999999999")))
      (replicate 16 "x"%char)
    = Some (0, chars "ARGUMENT ERROR" ++ NUL :: drop 15 (replicate 16 "x"%char)).
Proof.
  assert (c_str (argument (mkCommand COMMAND_DEC (padded 16 (chars "dec"))
                             (padded 16 (chars "99999999999"))))
          = Some ([] ++ [] ++ chars "99999999999")) as H1 by reflexivity.
  assert (lenient [] [] (chars "99999999999")) as H2.
  { split; [constructor|]. split; [left; reflexivity|].
    split; [discriminate|repeat constructor]. }
  assert (@nil ascii ++ [] ≠ [] ∨ dec_base (chars "99999999999") = 10) as H3
    by (right; reflexivity).
  assert (0xFFFF < decimal_value (chars "99999999999")) as H4 by reflexivity.
  assert (15 ≤ 16 ≤ length (replicate 16 "x"%char))%nat as H5 by (simpl; lia).
  exact (conj H1 (conj H2 (conj H3 (conj H4 (conj H5
    (dec_above_range_rejected 16 _ _ _ _ _ H1 H2 H3 H4 H5)))))).
Defined.

Lemma dec_trailing_rejected_witness :
  c_str (argument (mkCommand COMMAND_DEC (padded 16 (chars "dec")) (padded 16 (chars "42 "))))
  = Some (chars "42" ++ " "%char :: [])
  ∧ chars "42" ≠ []
  ∧ Forall (λ c, isdigit c = true) (chars "42")
  ∧ head (chars "42") ≠ Some "0"%char
  ∧ isdigit " "%char = false
  ∧ (15 ≤ 16 ≤ length (replicate 16 "x"%char))%nat
  ∧ process_cmd_dec 16
      (mkCommand COMMAND_DEC (padded 16 (chars "dec")) (padded 16 (chars "42 ")))
      (replicate 16 "x"%char)
    = Some (0, chars "ARGUMENT ERROR" ++ NUL :: drop 15 (replicate 16 "x"%char)).
Proof.
  assert (c_str (argument (mkCommand COMMAND_DEC (padded 16 (chars "dec"))
                             (padded 16 (chars "42 "))))
          = Some (chars "42" ++ " "%char :: [])) as H1 by reflexivity.
  assert (chars "42" ≠ []) as H2 by discriminate.
  assert (Forall (λ c, isdigit c = true) (chars "42")) as H3 by (repeat constructor).
  assert (head (chars "42") ≠ Some "0"%char) as H4 by discriminate.
  assert (isdigit " "%char = false) as H5 by reflexivity.
  assert (15 ≤ 16 ≤ length (replicate 16 "x"%char))%nat as H6 by (simpl; lia).
  exact (conj H1 (conj H2 (conj H3 (conj H4 (conj H5 (conj H6
    (dec_trailing_rejected 16 _ _ _ _ _ H1 H2 H3 H4 H5 H6))))))).
Defined.

Lemma dec_leading_zero_rejected_witness :
  c_str (argument (mkCommand COMMAND_DEC (padded 16 (chars "dec")) (padded 16 (chars "0X10"))))
  = Some ("0"%char :: "X"%char :: chars "10")
  ∧ "X"%char ≠ "x"%char ∧ "X"%char ≠ "b"%char
  ∧ is_digit_of 8 "X"%char = false
  ∧ isspace "X"%char = false ∧ "X"%char ≠ "+"%char ∧ "X"%char ≠ "-"%char
  ∧ (15 ≤ 16 ≤ length (replicate 16 "x"%char))%nat
  ∧ process_cmd_dec 16
      (mkCommand COMMAND_DEC (padded 16 (chars "dec")) (padded 16 (chars "0X10")))
      (replicate 16 "x"%char)
    = Some (0, chars "ARGUMENT ERROR" ++ NUL :: drop 15 (replicate 16 "x"%char)).
Proof.
  assert (c_str (argument (mkCommand COMMAND_DEC (padded 16 (chars "dec"))
                             (padded 16 (chars "0X10"))))
          = Some ("0"%char :: "X"%char :: chars "10")) as H1 by reflexivity.
  assert ("X"%char ≠ "x"%char) as H2 by discriminate.
  assert ("X"%char ≠ "b"%char) as H3 by discriminate.
  assert (is_digit_of 8 "X"%char = false) as H4 by reflexivity.
  assert (isspace "X"%char = false) as H5 by reflexivity.
  assert ("X"%char ≠ "+"%char) as H6 by discriminate.
  assert ("X"%char ≠ "-"%char) as H7 by discriminate.
  assert (15 ≤ 16 ≤ length (replicate 16 "x"%char))%nat as H8 by (simpl; lia).
  exact (conj H1 (conj H2 (conj H3 (conj H4 (conj H5 (conj H6 (conj H7 (conj H8
    (dec_leading_zero_rejected 16 _ _ _ _ H1 H2 H3 H4 H5 H6 H7 H8))))))))).
Defined.

Lemma dec_minus_sign_witness :
  c_str (argument (mkCommand COMMAND_DEC (padded 16 (chars "dec"))
                     (padded 16 (chars "-4294967295"))))
  = Some ([] ++ "-"%char :: chars "4294967295")
  ∧ Forall (λ c, is_blank c = true) []
  ∧ chars "4294967295" ≠ []
  ∧ Forall (λ c, isdigit c = true) (chars "4294967295")
  ∧ (15 ≤ 16 ≤ length (replicate 16 "x"%char))%nat
  ∧ ∃ text,
      process_cmd_dec 16
        (mkCommand COMMAND_DEC (padded 16 (chars "dec")) (padded 16 (chars "-4294967295")))
        (replicate 16 "x"%char)
      = Some (0, text ++ NUL :: drop (S (length text)) (replicate 16 "x"%char))
      ∧ text = chars "1".
Proof.
  assert (c_str (argument (mkCommand COMMAND_DEC (padded 16 (chars "dec"))
                             (padded 16 (chars "-4294967295"))))
          = Some ([] ++ "-"%char :: chars "4294967295")) as H1 by reflexivity.
  assert (Forall (λ c, is_blank c = true) []) as H2 by constructor.
  assert (chars "4294967295" ≠ []) as H3 by discriminate.
  assert (Forall (λ c, isdigit c = true) (chars "4294967295")) as H4
    by (repeat constructor).
  assert (15 ≤ 16 ≤ length (replicate 16 "x"%char))%nat as H5 by (simpl; lia).
  exact (conj H1 (conj H2 (conj H3 (conj H4 (conj H5
    (dec_minus_sign 16 _ _ _ _ H1 H2 H3 H4 H5)))))).
Defined.

Lemma dec_prefixed_numeral_witness :
  ((chars "0x" = chars "0x" ∧ 16 = 16) ∨ (chars "0x" = chars "0b" ∧ 16 = 2)
   ∨ (chars "0x" = chars "0" ∧ 16 = 8))
  ∧ c_str (argument (mkCommand COMMAND_DEC (padded 16 (chars "dec"))
                       (padded 16 (chars "0xfF"))))
    = Some (chars "0x" ++ chars "fF")
  ∧ chars "fF" ≠ []
  ∧ Forall (λ c, is_digit_of 16 c = true) (chars "fF")
  ∧ (15 ≤ 16 ≤ length (replicate 16 "x"%char))%nat
  ∧ ∃ text,
      process_cmd_dec 16
        (mkCommand COMMAND_DEC (padded 16 (chars "dec")) (padded 16 (chars "0xfF")))
        (replicate 16 "x"%char)
      = Some (0, text ++ NUL :: drop (S (length text)) (replicate 16 "x"%char))
      ∧ text = chars "255".
Proof.
  assert ((chars "0x" = chars "0x" ∧ 16 = 16) ∨ (chars "0x" = chars "0b" ∧ 16 = 2)
          ∨ (chars "0x" = chars "0" ∧ 16 = 8)) as H1 by (left; split; reflexivity).
  assert (c_str (argument (mkCommand COMMAND_DEC (padded 16 (chars "dec"))
                             (padded 16 (chars "0xfF"))))
          = Some (chars "0x" ++ chars "fF")) as H2 by reflexivity.
  assert (chars "fF" ≠ []) as H3 by discriminate.
  assert (Forall (λ c, is_digit_of 16 c = true) (chars "fF")) as H4
    by (repeat constructor).
  assert (15 ≤ 16 ≤ length (replicate 16 "x"%char))%nat as H5 by (simpl; lia).
  exact (conj H1 (conj H2 (conj H3 (conj H4 (conj H5
    (dec_prefixed_numeral 16 _ _ _ _ _ H1 H2 H3 H4 H5)))))).
Defined.

Lemma mac_to_string_injective_witness :
  length [1; 2; 171; 205; 239; 0] = 6%nat
  ∧ length [1; 2; 171; 205; 239; 0] = 6%nat
  ∧ Forall is_uint8 [1; 2; 171; 205; 239; 0]
  ∧ Forall is_uint8 [1; 2; 171; 205; 239; 0]
  ∧ (17 ≤ length (replicate 18 "x"%char))%nat
  ∧ (17 ≤ length (replicate 20 "y"%char))%nat
  ∧ mac_to_string (Ptr [1; 2; 171; 205; 239; 0]) (Ptr (replicate 18 "x"%char))
    = Some (Ptr (chars "01:02:AB:CD:EF:00" ++ ["x"%char]))
  ∧ mac_to_string (Ptr [1; 2; 171; 205; 239; 0]) (Ptr (replicate 20 "y"%char))
    = Some (Ptr (chars "01:02:AB:CD:EF:00" ++ replicate 3 "y"%char))
  ∧ take 17 (chars "01:02:AB:CD:EF:00" ++ ["x"%char])
    = take 17 (chars "01:02:AB:CD:EF:00" ++ replicate 3 "y"%char)
  ∧ [1; 2; 171; 205; 239; 0] = [1; 2; 171; 205; 239; 0].
Proof.
  assert (length [1; 2; 171; 205; 239; 0] = 6%nat) as H1 by reflexivity.
  assert (Forall is_uint8 [1; 2; 171; 205; 239; 0]) as H2
    by (repeat constructor; unfold is_uint8; lia).
  assert (17 ≤ length (replicate 18 "x"%char))%nat as H3 by (simpl; lia).
  assert (17 ≤ length (replicate 20 "y"%char))%nat as H4 by (simpl; lia).
  assert (mac_to_string (Ptr [1; 2; 171; 205; 239; 0]) (Ptr (replicate 18 "x"%char))
          = Some (Ptr (chars "01:02:AB:CD:EF:00" ++ ["x"%char]))) as H5
    by (vm_compute; reflexivity).
  assert (mac_to_string (Ptr [1; 2; 171; 205; 239; 0]) (Ptr (replicate 20 "y"%char))
          = Some (Ptr (chars "01:02:AB:CD:EF:00" ++ replicate 3 "y"%char))) as H6
    by (vm_compute; reflexivity).
  assert (take 17 (chars "01:02:AB:CD:EF:00" ++ ["x"%char])
          = take 17 (chars "01:02:AB:CD:EF:00" ++ replicate 3 "y"%char)) as H7
    by reflexivity.
  exact (conj H1 (conj H1 (conj H2 (conj H2 (conj H3 (conj H4 (conj H5 (conj H6 (conj H7
    (mac_to_string_injective _ _ _ _ _ _ H1 H1 H2 H2 H3 H4 H5 H6 H7)))))))))).
Defined.
